(** * contagent: a shallow embedding of the session orchestrator's parts

    The first half of the file holds the embedding, one module per source
    file or library:

    - [Cleanup]   : internal/cleanup.go   (CleanupManager)
    - [GoStr]     : the few functions of package strings the sources use
    - [Flag]      : flag.FlagSet.Parse of the standard library
    - [Config]    : internal/config.go, internal/types.go (ParseConfig)
    - [Docker]    : internal/docker       (BuildImage, CreateContainer,
                    Container.Wait, Container.Attach, TTY.Monitor)
    - [Filepath]  : filepath.Clean and filepath.Join (Unix; the program
                    uses SIGWINCH and builds on Unix only)
    - [Git]       : internal/git/archive.go (CreateArchive)
    - [GitServer] : internal/git/server.go  (NewServer)
    - [Main]      : main.go (the call that creates the container)
    - [Scenarios] : concrete inputs

    The second half holds the properties, in modules named after the
    first ones ([CleanupFacts], [ConfigFacts], ...).

    Calls into the operating system, the container engine and the git
    binary are not code of the repository; each one is represented by the
    outcome it hands back, collected in an "environment" record that the
    embedded function takes as an argument.  Requests the code makes (to
    the engine, to the output sink, to the tar writer) are recorded in
    the order they are made. *)

From stdpp Require Import base option list strings gmap pretty.
From Stdlib Require Import ZArith Lia Ascii.

Local Open Scope string_scope.
Local Open Scope list_scope.

(** Go's [error] value: [None] is [nil]. *)
Definition error := option string.

(** A Go result pair [(T, error)]. *)
Inductive Result (T : Type) : Type :=
| Ok (t : T)
| Err (msg : string).
Arguments Ok {T} t.
Arguments Err {T} msg.

Definition is_err {T} (r : Result T) : bool :=
match r with Ok _ => false | Err _ => true end.

(* ===================================================================== *)
(** * internal/cleanup.go *)
(* ===================================================================== *)

Module Cleanup.
Section WithWorld.

(** The state the release actions act on (listeners, containers,
    readers ...).  A release action is a Go closure [func() error]: it
    changes that state and returns an error or nil. *)
Context {World : Type}.

Record cleanupFunc := mkCleanupFunc {
  name : string;
  fn : World -> error * World
}.

Record CleanupManager := mkCleanupManager {
  funcs : list cleanupFunc
}.

Definition NewCleanupManager : CleanupManager := {| funcs := [] |}.

(** [m.funcs = append([]cleanupFunc{{name, fn}}, m.funcs...)], under the
    mutex. *)
Definition Add (nm : string) (f : World -> error * World)
    (m : CleanupManager) : CleanupManager :=
  {| funcs := [ {| name := nm; fn := f |} ] ++ funcs m |}.

(** What one run of [Execute] does: the state it leaves, the entries
    whose [fn] it called (in call order) and the lines given to
    [log.Printf]. *)
Record Outcome := mkOutcome {
  world : World;
  invoked : list cleanupFunc;
  logged : list string
}.

Definition log_line (c : cleanupFunc) (e : string) : string :=
  "cleanup failed for " +:+ name c +:+ ": " +:+ e.

(** The body of the [for _, cleanup := range m.funcs] loop. *)
Definition execute_step (o : Outcome) (c : cleanupFunc) : Outcome :=
  let '(err, w') := fn c (world o) in
  {| world := w';
     invoked := invoked o ++ [c];
     logged := match err with
               | Some e => logged o ++ [log_line c e]
               | None => logged o
               end |}.

(** [Execute] has a pointer receiver; it returns the manager as it
    leaves it together with the outcome.  The loop, which runs under the
    mutex, only reads [m.funcs]. *)
Definition Execute (m : CleanupManager) (w : World)
    : CleanupManager * Outcome :=
  (m, foldl execute_step {| world := w; invoked := []; logged := [] |}
            (funcs m)).

(** Pushing a sequence of entries, first to last. *)
Definition add_all (entries : list cleanupFunc) (m : CleanupManager)
    : CleanupManager :=
  foldl (fun acc c => Add (name c) (fn c) acc) m entries.

(** The state reached by calling the given entries one after another. *)
Definition run_in_order (cs : list cleanupFunc) (w : World) : World :=
  foldl (fun acc c => snd (fn c acc)) w cs.

End WithWorld.
Arguments cleanupFunc : clear implicits.
Arguments CleanupManager : clear implicits.
Arguments Outcome : clear implicits.
End Cleanup.

(* ===================================================================== *)
(** * Go string and path primitives used by the sources *)
(* ===================================================================== *)

Module GoStr.

(** [s[i] == c]; false when [i] is out of range (the sources only index
    after a length test). *)
Definition byte_is (s : string) (i : nat) (c : ascii) : bool :=
  match String.get i s with
  | Some a => Ascii.eqb a c
  | None => false
  end.

(** [s[n:]] *)
Fixpoint slice_from (n : nat) (s : string) : string :=
  match n, s with
  | O, _ => s
  | S n', String _ r => slice_from n' r
  | S _, EmptyString => EmptyString
  end.

(** Splits at the first occurrence of the byte [c]. *)
Fixpoint cut_at (c : ascii) (s : string) : option (string * string) :=
  match s with
  | EmptyString => None
  | String a r =>
      if Ascii.eqb a c then Some (EmptyString, r)
      else match cut_at c r with
           | Some (before, after) => Some (String a before, after)
           | None => None
           end
  end.

(** [strings.Cut(s, sep)] for a one-byte separator:
    [(before, after, found)]. *)
Definition Cut (s : string) (sep : ascii) : string * string * bool :=
  match cut_at sep s with
  | Some (before, after) => (before, after, true)
  | None => (s, EmptyString, false)
  end.

(** [strings.ReplaceAll(s, old, new)] for one-byte [old] and [new]. *)
Fixpoint ReplaceAll (s : string) (old new : ascii) : string :=
  match s with
  | EmptyString => EmptyString
  | String a r =>
      String (if Ascii.eqb a old then new else a) (ReplaceAll r old new)
  end.

(** [strings.HasPrefix(s, p)] *)
Definition HasPrefix (s p : string) : bool := String.prefix p s.

(** [strings.Join(elems, sep)] *)
Fixpoint Join (elems : list string) (sep : string) : string :=
  match elems with
  | [] => EmptyString
  | [e] => e
  | e :: rest => e +:+ sep +:+ Join rest sep
  end.

(** [strings.Contains(s, sub)]: [s = pre ++ sub ++ post] for some [pre],
    [post]. *)
Definition Contains (s sub : string) : Prop :=
  exists pre post, s = pre +:+ sub +:+ post.

End GoStr.

(* ===================================================================== *)
(** * The standard flag package, as far as ParseConfig uses it *)
(* ===================================================================== *)

(** [flag.FlagSet] belongs to the Go standard library, not to the
    repository.  The model below follows [FlagSet.Parse] and
    [FlagSet.parseOne] of that package.  The variables the flags are bound
    to ([fs.Var(&additionalEnv, ...)], [fs.StringVar(&network, ...)]) live
    outside the flag set; they are kept in a store of type [V] that the
    parser threads through the [Set] calls.  What [failf] prints to the
    flag set's output is left out. *)
Module Flag.

Inductive ParseError :=
| BadFlagSyntax (s : string)
| ErrHelp
| NotDefined (name : string)
| NeedsArgument (name : string)
| InvalidValue (value name err : string)
| InvalidBoolean (value name err : string).

Section WithStore.
Context {V : Type}.

(** A registered flag: its [Value.Set] method acts on the store. *)
Record Flag := mkFlag {
  Usage : string;
  IsBoolFlag : bool;
  Set_ : string -> V -> error * V
}.

Record FlagSet := mkFlagSet {
  fs_name : string;
  parsed : bool;
  formal : gmap string Flag;
  args : list string
}.

Definition NewFlagSet (name : string) : FlagSet :=
  {| fs_name := name; parsed := false; formal := ∅; args := [] |}.

(** [fs.Var(value, name, usage)] *)
Definition Var (set : string -> V -> error * V) (name usage : string)
    (f : FlagSet) : FlagSet :=
  {| fs_name := fs_name f; parsed := parsed f;
     formal := <[name := {| Usage := usage; IsBoolFlag := false;
                            Set_ := set |}]> (formal f);
     args := args f |}.

Definition with_args (f : FlagSet) (a : list string) : FlagSet :=
  {| fs_name := fs_name f; parsed := parsed f; formal := formal f;
     args := a |}.

(** [fs.Args()] *)
Definition Args (f : FlagSet) : list string := args f.

(** The loop [for i := 1; i < len(name); i++ { if name[i] == '=' ... }]:
    the first [=] that is not the first byte splits the name from an
    attached value.  Returns [(name, hasValue, value)]. *)
Definition split_value (name : string) : string * bool * string :=
  match name with
  | EmptyString => (name, false, EmptyString)
  | String c rest =>
      match GoStr.cut_at "=" rest with
      | Some (before, after) => (String c before, true, after)
      | None => (name, false, EmptyString)
      end
  end.

(** [parseOne]: [(seen, err)] with the flag set and the store as they are
    left. *)
Definition parseOne (f : FlagSet) (v : V)
    : bool * option ParseError * FlagSet * V :=
  match args f with
  | [] => (false, None, f, v)
  | s :: tl =>
      if (String.length s <? 2)%nat || negb (GoStr.byte_is s 0 "-") then
        (false, None, f, v)
      else
        let numMinuses := if GoStr.byte_is s 1 "-" then 2%nat else 1%nat in
        if GoStr.byte_is s 1 "-" && (String.length s =? 2)%nat then
          (* "--" terminates the flags *)
          (false, None, with_args f tl, v)
        else
          let name := GoStr.slice_from numMinuses s in
          if (String.length name =? 0)%nat || GoStr.byte_is name 0 "-"
             || GoStr.byte_is name 0 "=" then
            (false, Some (BadFlagSyntax s), f, v)
          else
            (* it's a flag. does it have an argument? *)
            let f := with_args f tl in
            let '(name, hasValue, value) := split_value name in
            match formal f !! name with
            | None =>
                if String.eqb name "help" || String.eqb name "h" then
                  (false, Some ErrHelp, f, v)
                else (false, Some (NotDefined name), f, v)
            | Some flag =>
                if IsBoolFlag flag then
                  if hasValue then
                    match Set_ flag value v with
                    | (Some e, v') =>
                        (false, Some (InvalidBoolean value name e), f, v')
                    | (None, v') => (true, None, f, v')
                    end
                  else
                    match Set_ flag "true" v with
                    | (Some e, v') =>
                        (false, Some (InvalidBoolean "true" name e), f, v')
                    | (None, v') => (true, None, f, v')
                    end
                else
                  (* It must have a value, which might be the next
                     argument. *)
                  let '(hasValue, value, f) :=
                    match hasValue, args f with
                    | false, next :: tl' => (true, next, with_args f tl')
                    | _, _ => (hasValue, value, f)
                    end in
                  if negb hasValue then
                    (false, Some (NeedsArgument name), f, v)
                  else
                    match Set_ flag value v with
                    | (Some e, v') =>
                        (false, Some (InvalidValue value name e), f, v')
                    | (None, v') => (true, None, f, v')
                    end
            end
  end.

(** The loop of [Parse] with error handling [ContinueOnError]: call
    [parseOne] until it reports no flag seen.  Every iteration that goes
    on removes at least one argument, so [S (length arguments)]
    iterations are never used up (lemma [Parse_loop_fuel] below). *)
Fixpoint Parse_loop (fuel : nat) (f : FlagSet) (v : V)
    : option ParseError * FlagSet * V :=
  match fuel with
  | O => (None, f, v)
  | S fuel' =>
      let '(seen, err, f', v') := parseOne f v in
      if seen then Parse_loop fuel' f' v' else (err, f', v')
  end.

Definition Parse (f : FlagSet) (v : V) (arguments : list string)
    : option ParseError * FlagSet * V :=
  Parse_loop (S (length arguments))
    {| fs_name := fs_name f; parsed := true; formal := formal f;
       args := arguments |} v.

End WithStore.
Arguments Flag : clear implicits.
Arguments FlagSet : clear implicits.
End Flag.

(* ===================================================================== *)
(** * internal/types.go *)
(* ===================================================================== *)

Module Types.

Definition SessionID := string.
Definition ImageName := string.
Definition Command := list string.
Definition Environment := list string.

End Types.

(* ===================================================================== *)
(** * internal/config.go *)
(* ===================================================================== *)

Module Config.
Import Types.

(** [time.Duration] counts nanoseconds in an int64. *)
Definition Duration := Z.
Definition Millisecond : Duration := 1000000%Z.

Definition DefaultStopTimeout : Z := 10.
Definition DefaultTTYRetries : Z := 10.
Definition DefaultRetryDelay : Duration := (10 * Millisecond)%Z.

Record GitUserConfig := mkGitUserConfig {
  Name : string;
  Email : string
}.

Record Config := mkConfig {
  ImageName : Types.ImageName;
  WorkingDir : string;
  StopTimeout : Z;
  TTYRetries : Z;
  RetryDelay : Duration;
  GitUser : GitUserConfig;
  Args : Command;
  Env : Environment;
  Volumes : list string;
  DockerfilePath : string;
  Network : string
}.

(** The local variables of ParseConfig that the flags are bound to. *)
Record FlagVars := mkFlagVars {
  additionalEnv : list string;
  volumes : list string;
  dockerfilePath : string;
  network : string
}.

(** [stringSlice.Set] appends [value] to the slice it points to and
    returns nil; one instance is bound to [additionalEnv], one to
    [volumes]. *)
Definition set_additionalEnv (value : string) (v : FlagVars)
    : error * FlagVars :=
  (None, {| additionalEnv := additionalEnv v ++ [value];
            volumes := volumes v;
            dockerfilePath := dockerfilePath v;
            network := network v |}).

Definition set_volumes (value : string) (v : FlagVars) : error * FlagVars :=
  (None, {| additionalEnv := additionalEnv v;
            volumes := volumes v ++ [value];
            dockerfilePath := dockerfilePath v;
            network := network v |}).

(** The [Set] of the values made by [fs.StringVar]. *)
Definition set_dockerfilePath (value : string) (v : FlagVars)
    : error * FlagVars :=
  (None, {| additionalEnv := additionalEnv v;
            volumes := volumes v;
            dockerfilePath := value;
            network := network v |}).

Definition set_network (value : string) (v : FlagVars) : error * FlagVars :=
  (None, {| additionalEnv := additionalEnv v;
            volumes := volumes v;
            dockerfilePath := dockerfilePath v;
            network := value |}).

(** The flag set of ParseConfig after the four registrations. *)
Definition flagset : Flag.FlagSet FlagVars :=
  Flag.Var set_network "network" "	Connect to a container network"
    (Flag.Var set_dockerfilePath "dockerfile" "Dockerfile path"
      (Flag.Var set_volumes "volume" "volume mount"
        (Flag.Var set_additionalEnv "env" "environment variable"
          (Flag.NewFlagSet "contagent")))).

(** The variables as the registrations leave them: the slices are nil and
    [StringVar] stores the defaults. *)
Definition initial_vars : FlagVars :=
  {| additionalEnv := []; volumes := [];
     dockerfilePath := ""; network := "default" |}.

(** The [lookup] map built from the host environment. *)
Definition build_lookup (environment : list string) : gmap string string :=
  foldl (fun (lookup : gmap string string) variable =>
           let '(key, value, ok) := GoStr.Cut variable "=" in
           if ok then <[key := value]> lookup else lookup)
        ∅ environment.

Definition defaultVolumes : list string :=
  [ "/var/run/docker.sock:/var/run/docker.sock";
    "/run/host-services/ssh-auth.sock:/run/host-services/ssh-auth.sock" ].

Definition ParseConfig (args environment : list string) : Config :=
  let lookup := build_lookup environment in
  (* Ignore errors since we want to capture remaining args *)
  let '(_, fs, vars) := Flag.Parse flagset initial_vars args in
  let programArgs := Flag.Args fs in
  let env : list string := [] in
  let value := match lookup !! "TERM" with
               | Some value => value
               | None => "xterm-256color"
               end in
  let env := env ++ ["TERM=" +:+ value] in
  let value := match lookup !! "COLORTERM" with
               | Some value => value
               | None => "truecolor"
               end in
  let env := env ++ ["COLORTERM=" +:+ value] in
  let value := default "" (lookup !! "ANTHROPIC_API_KEY") in
  let env := env ++ ["ANTHROPIC_API_KEY=" +:+ value] in
  let env := env ++ ["SSH_AUTH_SOCK=/run/host-services/ssh-auth.sock"] in
  let env := env ++ additionalEnv vars in
  let allVolumes := defaultVolumes ++ volumes vars in
  {| ImageName := "contagent:latest";
     WorkingDir := "/app";
     DockerfilePath := dockerfilePath vars;
     StopTimeout := DefaultStopTimeout;
     TTYRetries := DefaultTTYRetries;
     RetryDelay := DefaultRetryDelay;
     GitUser := {| Name := "Contagent"; Email := "contagent@example.com" |};
     Args := programArgs;
     Env := env;
     Volumes := allVolumes;
     Network := network vars |}.

(** ** The command-line surface, for stating what ParseConfig computes *)

(** The value the host environment gives to [key]: variables are split at
    their first [=]; of several variables with the same key the last one
    counts. *)
Fixpoint host_value (key : string) (environment : list string)
    : option string :=
  match environment with
  | [] => None
  | variable :: rest =>
      match host_value key rest with
      | Some value => Some value
      | None =>
          match GoStr.cut_at "=" variable with
          | Some (k, value) => if String.eqb k key then Some value else None
          | None => None
          end
      end
  end.

(** One recognised flag together with its value, written as two
    arguments: [--env K=V], [--volume H:C], [--dockerfile PATH],
    [--network NAME]. *)
Inductive CliFlag :=
| FlagEnv (value : string)
| FlagVolume (value : string)
| FlagDockerfile (value : string)
| FlagNetwork (value : string).

Definition render (fl : CliFlag) : list string :=
  match fl with
  | FlagEnv value => ["--env"; value]
  | FlagVolume value => ["--volume"; value]
  | FlagDockerfile value => ["--dockerfile"; value]
  | FlagNetwork value => ["--network"; value]
  end.

Definition store (v : FlagVars) (fl : CliFlag) : FlagVars :=
  match fl with
  | FlagEnv value => snd (set_additionalEnv value v)
  | FlagVolume value => snd (set_volumes value v)
  | FlagDockerfile value => snd (set_dockerfilePath value v)
  | FlagNetwork value => snd (set_network value v)
  end.

Definition env_values (fls : list CliFlag) : list string :=
  omap (fun fl => match fl with FlagEnv value => Some value | _ => None end)
       fls.

Definition volume_values (fls : list CliFlag) : list string :=
  omap (fun fl => match fl with FlagVolume value => Some value | _ => None end)
       fls.

(** A command vector at which flag parsing stops without consuming
    anything: it is empty or starts with an argument that is shorter than
    two bytes or does not start with [-]. *)
Definition starts_command (rest : list string) : bool :=
  match rest with
  | [] => true
  | s :: _ => (String.length s <? 2)%nat || negb (GoStr.byte_is s 0 "-")
  end.

End Config.

(* ===================================================================== *)
(** * internal/docker: client.go, container.go, tty.go *)
(* ===================================================================== *)

Module Docker.
Import Types Config.

(** Two formatting functions of the Go standard library are taken as
    given: [Quote] is what the verb [%q] prints for a string
    ([strconv.Quote]) and [Itoa] what [%d] prints for an integer. *)
Section WithFmt.
Variable Quote : string -> string.
Variable Itoa : Z -> string.

(** ** The engine requests and sink calls the code makes *)

(** The option structs of the engine API; a trailing underscore marks a
    field whose Go name is taken by another definition. *)

Record ImageBuildOptions := mkImageBuildOptions {
  Dockerfile : string;
  Tags : list string;
  Remove : bool
}.


Record ContainerConfig := mkContainerConfig {
  Image_ : string;
  Cmd : list string;
  Tty : bool;
  OpenStdin : bool;
  AttachStdin : bool;
  AttachStdout : bool;
  AttachStderr : bool;
  Env_ : list string;
  WorkingDir_ : string
}.

Record HostConfig := mkHostConfig {
  ExtraHosts : list string;
  Binds : list string;
  NetworkMode : string
}.

Record ContainerCreateOptions := mkContainerCreateOptions {
  Config_ : ContainerConfig;
  HostConfig_ : HostConfig;
  Name_ : string
}.

Inductive Action :=
(* requests to the engine *)
| ImageBuild (options : ImageBuildOptions)
| ContainerCreate (options : ContainerCreateOptions)
| ContainerWait (id condition : string)
| ContainerStop (id : string) (timeout : Z)
| ContainerResize (id : string) (height width : Z)
| ContainerAttach (id : string)
(* the host terminal *)
| SetRawTerminalIn
| SetRawTerminalOut
(* the output sink *)
| Print (s : string)
| Printf (s : string)
| Println (s : string)
| Warningf (s : string)
| Fatalf (s : string)
(* [<-time.After(d)] *)
| After (d : Duration).

(** ** client.go *)

Record Image := mkImage { Name : string }.

(** One decoded value of the build response. *)
Record BuildOutput := mkBuildOutput {
  Stream : string;
  ErrorDetail_Code : Z;
  ErrorDetail_Message : string
}.

(** What the [select] after the ImageBuild request finds. *)
Inductive TarSelect :=
| TarDone (err : error)     (* a value on errChan *)
| TarCtxDone (err : string) (* the context is done *)
| TarDefault.               (* neither is ready *)

(** The surroundings of one BuildImage call: the Dockerfile read, the
    engine's answer (the successive results of [decoder.Decode], as long
    as [decoder.More()] holds), the state of the tar goroutine and, for
    each turn of the decode loop, the context error if the context is
    done by then. *)
Record BuildEnv := mkBuildEnv {
  read_file : Result string;
  image_build : Result (list (Result BuildOutput));
  tar_select : TarSelect;
  ctx_err_at : nat -> option string
}.

Definition build_failed_message (message : string) : string :=
  "docker build failed: " +:+ message +:+
  String "010" "Check your Dockerfile syntax and base image availability".

(** The loop [for decoder.More() { ... }]; [i] counts the turns. *)
Fixpoint decode_loop (ctx_err : nat -> option string) (i : nat)
    (body : list (Result BuildOutput)) : error * list Action :=
  match body with
  | [] => (None, [])
  | decoded :: rest =>
      match ctx_err i with
      | Some e => (Some e, [])
      | None =>
          match decoded with
          | Err e =>
              (Some ("failed to decode build output: " +:+ e +:+
                     String "010" "Docker may have returned malformed JSON"),
               [])
          | Ok output =>
              if negb (ErrorDetail_Code output =? 0)%Z then
                (Some (build_failed_message (ErrorDetail_Message output)), [])
              else
                let '(err, actions) := decode_loop ctx_err (S i) rest in
                (err, Print (Stream output) :: actions)
          end
      end
  end.

Definition BuildImage (env : BuildEnv) (dockerfilePath : string)
    (imageName : Types.ImageName) : Result Image * list Action :=
  match read_file env with
  | Err e =>
      (Err ("failed to read Dockerfile at " +:+ Quote dockerfilePath +:+ ": "
            +:+ e +:+
            String "010" "Check that the file exists and is readable"), [])
  | Ok dockerfile =>
      let request :=
        ImageBuild {| Dockerfile := "Dockerfile"; Tags := [imageName];
                      Remove := true |} in
      match image_build env with
      | Err e =>
          (Err ("failed to build image " +:+ Quote imageName +:+ ": " +:+ e
                +:+ String "010" "Check Docker daemon logs for details"),
           [request])
      | Ok body =>
          match tar_select env with
          | TarDone (Some e) => (Err e, [request])
          | TarCtxDone e => (Err e, [request])
          | TarDone None | TarDefault =>
              match decode_loop (ctx_err_at env) 0 body with
              | (Some e, actions) => (Err e, request :: actions)
              | (None, actions) =>
                  (Ok {| Name := imageName |}, request :: actions)
              end
          end
      end
  end.

(** The fragments given to the sink with [w.Print], in order. *)
Definition printed (actions : list Action) : list string :=
  omap (fun a => match a with Print s => Some s | _ => None end) actions.

(** The build records before the first one that carries a nonzero error
    code, and that record. *)
Fixpoint ok_prefix (outputs : list BuildOutput) : list BuildOutput :=
  match outputs with
  | [] => []
  | output :: rest =>
      if (ErrorDetail_Code output =? 0)%Z then output :: ok_prefix rest
      else []
  end.

Fixpoint first_error (outputs : list BuildOutput) : option BuildOutput :=
  match outputs with
  | [] => None
  | output :: rest =>
      if (ErrorDetail_Code output =? 0)%Z then first_error rest
      else Some output
  end.

(** The fields [Name], [StopTimeout], [TTYRetries] and [RetryDelay] of
    the Go struct carry a [C] here, their names being taken by [Image]
    and [Config]; the [client] field is the engine, whose answers each
    method takes as arguments. *)
Record Container := mkContainer {
  ID : string;
  CName : string;
  CStopTimeout : Z;
  CTTYRetries : Z;
  CRetryDelay : Duration
}.

(** [create] is the engine's answer to the create request: the id of the
    new container or an error. *)
Definition CreateContainer (create : Result string)
    (sessionID : SessionID) (image : Image) (args : Command)
    (env : Environment) (volumes : list string) (workingDir network : string)
    (stopTimeout ttyRetries : Z) (retryDelay : Duration)
    : Result Container * list Action :=
  let request :=
    ContainerCreate
      {| Config_ := {| Image_ := Name image;
                       Cmd := args;
                       Tty := true;
                       OpenStdin := true;
                       AttachStdin := true;
                       AttachStdout := true;
                       AttachStderr := true;
                       Env_ := env;
                       WorkingDir_ := workingDir |};
         HostConfig_ := {| ExtraHosts := ["host.docker.internal:host-gateway"];
                           Binds := volumes;
                           NetworkMode := network |};
         Name_ := sessionID |} in
  match create with
  | Err e =>
      (Err ("failed to create container " +:+ Quote sessionID +:+
            " from image " +:+ Quote (Name image) +:+ ": " +:+ e +:+
            String "010" "Ensure image exists and container config is valid"),
       [request])
  | Ok id =>
      (Ok {| ID := id; CName := sessionID; CStopTimeout := stopTimeout;
             CTTYRetries := ttyRetries; CRetryDelay := retryDelay |},
       [request])
  end.

(** ** container.go: Wait *)

(** The case of the [select] in Wait that fires. *)
Inductive WaitEvent :=
| WaitError (err : error)      (* a value on wait.Error *)
| WaitResult (statusCode : Z)  (* a value on wait.Result *)
| Signal.                      (* SIGINT or SIGTERM on sigChan *)

Definition WaitConditionNotRunning : string := "not-running".

(** [stop] is the engine's answer to a stop request. *)
Definition Wait (c : Container) (event : WaitEvent) (stop : error)
    : error * list Action :=
  let wait := ContainerWait (ID c) WaitConditionNotRunning in
  match event with
  | WaitError (Some e) =>
      (Some ("failed to wait for container " +:+ Quote (CName c) +:+ ": "
             +:+ e +:+
             String "010" "Docker daemon may have encountered an error"),
       [wait])
  | WaitError None => (None, [wait])
  | WaitResult statusCode =>
      (None,
       [wait;
        Printf (String "010" "Container exited with status: " +:+
                Itoa statusCode +:+ String "010" "")])
  | Signal =>
      let timeout := CStopTimeout c in
      (None,
       [wait;
        Println (String "010" "Received signal, stopping container...");
        ContainerStop (ID c) timeout]
       ++ match stop with
          | Some e => [Warningf ("failed to stop container: " +:+ e)]
          | None => []
          end)
  end.

(** The graceful-stop requests among the actions, with their timeouts. *)
Definition stop_requests (actions : list Action) : list (string * Z) :=
  omap (fun a => match a with
                 | ContainerStop id timeout => Some (id, timeout)
                 | _ => None
                 end) actions.

(** ** tty.go *)

Record TTY := mkTTY {
  id : string;
  maxRetries : Z;
  retryDelay : Duration
}.

Definition NewTTY (id : string) (maxRetries : Z) (retryDelay : Duration)
    : TTY :=
  {| id := id; maxRetries := maxRetries; retryDelay := retryDelay |}.

(** The terminal and the engine as the calls of [Resize] find them: for
    the [n]-th call made by Monitor and its retry task (0 is the call at
    the start of Monitor), the size [GetTtySize] reports and the engine's
    answer to a resize request. *)
Record ResizeOracle := mkResizeOracle {
  size_at : nat -> Z * Z;
  engine_at : nat -> error
}.

Definition Resize (o : ResizeOracle) (t : TTY) (n : nat)
    : error * list Action :=
  let '(height, width) := size_at o n in
  if (height =? 0)%Z && (width =? 0)%Z then (None, [])
  else (engine_at o n, [ContainerResize (id t) height width]).

(** int64 arithmetic wraps around. *)
Definition wrap64 (z : Z) : Z :=
  ((z + 2 ^ 63) mod 2 ^ 64 - 2 ^ 63)%Z.

(** The retry goroutine of Monitor.  [retry] is the loop variable,
    [remaining] the number of turns left, [err] the goroutine's own
    variable [err]; [cancelled k] tells whether, in turn [k], the context
    is done before the timer fires. *)
Fixpoint retry_loop (o : ResizeOracle) (t : TTY) (cancelled : nat -> bool)
    (retry remaining : nat) (err : error) : list Action :=
  match remaining with
  | O =>
      match err with
      | Some e => [Fatalf ("failed to resize tty: " +:+ e)]
      | None => []
      end
  | S remaining' =>
      if cancelled retry then []
      else
        let delay := wrap64 ((Z.of_nat retry + 1) * retryDelay t) in
        let '(err, actions) := Resize o t (S retry) in
        match err with
        | None => After delay :: actions
        | Some _ =>
            After delay :: actions ++
              retry_loop o t cancelled (S retry) remaining' err
        end
  end.

(** What a call of Monitor leaves behind: its result, the requests it
    made itself, the trace of the retry goroutine if it started one, and
    the goroutine that listens for SIGWINCH. *)
Record Monitoring := mkMonitoring {
  monitor_result : error;
  monitor_actions : list Action;
  retry_task : option (list Action);
  sigwinch_task : bool
}.

Definition Monitor (o : ResizeOracle) (t : TTY) (cancelled : nat -> bool)
    : Monitoring :=
  let '(err, actions) := Resize o t 0 in
  {| monitor_result := None;
     monitor_actions := actions;
     retry_task :=
       match err with
       | Some _ =>
           Some (retry_loop o t cancelled 0 (Z.to_nat (maxRetries t)) None)
       | None => None
       end;
     sigwinch_task := true |}.

(** The waits of a trace, in order. *)
Definition delays (actions : list Action) : list Duration :=
  omap (fun a => match a with After d => Some d | _ => None end) actions.

Definition fatal (actions : list Action) : bool :=
  existsb (fun a => match a with Fatalf _ => true | _ => false end) actions.



(** ** container.go: Attach *)

(** The surroundings of one Attach call: the terminal size and the
    engine's answer for the resize request Attach makes itself, what
    Monitor finds, and the results of putting the terminal in raw mode and
    of the attach request. *)
Record AttachEnv := mkAttachEnv {
  tty_size : Z * Z;
  first_resize : error;
  oracle : ResizeOracle;
  ctx_cancelled : nat -> bool;
  in_raw : error;
  attach : error;
  out_raw : error
}.

Record Attached := mkAttached {
  attach_result : error;
  attach_actions : list Action;
  monitoring : Monitoring;
  stdin_forwarding : bool;
  stdout_forwarding : bool
}.

Definition Attach (e : AttachEnv) (c : Container) : Attached :=
  let '(height, width) := tty_size e in
  let resize :=
    ContainerResize (ID c) height width ::
    match first_resize e with
    | Some err => [Warningf ("failed to resize tty: " +:+ err)]
    | None => []
    end in
  let tty := NewTTY (ID c) (CTTYRetries c) (CRetryDelay c) in
  let m := Monitor (oracle e) tty (ctx_cancelled e) in
  let acts := resize ++ monitor_actions m in
  match monitor_result m with
  | Some err =>
      {| attach_result := Some ("failed to monitor tty size: " +:+ err);
         attach_actions := acts; monitoring := m;
         stdin_forwarding := false; stdout_forwarding := false |}
  | None =>
      match in_raw e with
      | Some err =>
          {| attach_result :=
               Some ("failed to set stdin to raw terminal mode: " +:+ err +:+
                     String "010"
                       "Your terminal may not support TTY operations");
             attach_actions := acts ++ [SetRawTerminalIn]; monitoring := m;
             stdin_forwarding := false; stdout_forwarding := false |}
      | None =>
          match attach e with
          | Some err =>
              {| attach_result :=
                   Some ("failed to attach to container " +:+ Quote (CName c)
                         +:+ ": " +:+ err +:+
                         String "010"
                           "Container may have exited prematurely or Docker API is unreachable");
                 attach_actions :=
                   acts ++ [SetRawTerminalIn; ContainerAttach (ID c)];
                 monitoring := m;
                 stdin_forwarding := false; stdout_forwarding := false |}
          | None =>
              match out_raw e with
              | Some err =>
                  {| attach_result :=
                       Some ("failed to set stdout to raw terminal mode: "
                             +:+ err +:+
                             String "010"
                               "Your terminal may not support TTY operations");
                     attach_actions :=
                       acts ++ [SetRawTerminalIn; ContainerAttach (ID c);
                                SetRawTerminalOut];
                     monitoring := m;
                     stdin_forwarding := true; stdout_forwarding := false |}
              | None =>
                  {| attach_result := None;
                     attach_actions :=
                       acts ++ [SetRawTerminalIn; ContainerAttach (ID c);
                                SetRawTerminalOut];
                     monitoring := m;
                     stdin_forwarding := true; stdout_forwarding := true |}
              end
          end
      end
  end.

End WithFmt.
End Docker.

(* ===================================================================== *)
(** * path/filepath (Unix), as far as the git package uses it *)
(* ===================================================================== *)

(** [filepath.Clean] and [filepath.Join] belong to the Go standard
    library.  The model works on the components between separators, which
    gives the same result as the library's byte loop: empty and [.]
    components are dropped, a [..] removes the component before it, at the
    root it is dropped, and at the start of a relative path it is kept. *)
Module Filepath.

Definition Separator : ascii := "/"%char.

(** The components of [s] between the occurrences of [c]. *)
Fixpoint split_on (c : ascii) (s : string) : list string :=
  match s with
  | EmptyString => [EmptyString]
  | String a r =>
      if Ascii.eqb a c then EmptyString :: split_on c r
      else match split_on c r with
           | h :: t => String a h :: t
           | [] => [String a EmptyString]
           end
  end.

(** One component processed by Clean; [out] holds the components kept so
    far, last one first. *)
Definition clean_step (rooted : bool) (out : list string) (comp : string)
    : list string :=
  if String.eqb comp "" || String.eqb comp "." then out
  else if String.eqb comp ".." then
    match out with
    | top :: rest =>
        if String.eqb top ".." then comp :: out else rest
    | [] => if rooted then [] else [comp]
    end
  else comp :: out.

Definition Clean (path : string) : string :=
  if String.eqb path "" then "."
  else
    let rooted := GoStr.byte_is path 0 Separator in
    let out := rev (foldl (clean_step rooted) [] (split_on Separator path)) in
    if rooted then "/" +:+ GoStr.Join out "/"
    else match out with
         | [] => "."
         | _ => GoStr.Join out "/"
         end.

(** [filepath.Join(elem...)]: the elements from the first non-empty one
    on, joined with separators and cleaned; the empty string if there is
    none. *)
Fixpoint Join (elem : list string) : string :=
  match elem with
  | [] => ""
  | e :: rest =>
      if String.eqb e "" then Join rest
      else Clean (GoStr.Join elem "/")
  end.

(** A component that Clean keeps as it is. *)
Definition valid_component (comp : string) : bool :=
  negb (String.eqb comp "") && negb (String.eqb comp ".")
  && negb (String.eqb comp "..").

(** A relative path made of such components only, as git keeps them in
    its index and as directory listings give them: no empty component,
    no [.] and no [..]. *)
Definition plain_path (s : string) : bool :=
  forallb valid_component (split_on Separator s).

End Filepath.

(* ===================================================================== *)
(** * internal/git: archive.go *)
(* ===================================================================== *)

Module Git.
Import Filepath.

Section WithFmt.
(** What the verb [%q] prints for a string. *)
Variable Quote : string -> string.

(** ** Files as the code sees them *)

(** [os.FileMode]: permission bits and type bits. *)
Definition ModeDir : Z := 2 ^ 31.
Definition ModeSymlink : Z := 2 ^ 27.

Record FileInfo := mkFileInfo {
  Mode : Z;
  Size : Z;
  ModTime : Z
}.

Definition IsDir (info : FileInfo) : bool :=
  negb (Z.land (Mode info) ModeDir =? 0)%Z.

(** [info.Mode()&os.ModeSymlink != 0] *)
Definition is_symlink (info : FileInfo) : bool :=
  negb (Z.land (Mode info) ModeSymlink =? 0)%Z.

(** A file tree as [filepath.Walk] meets it: [os.Lstat] fails or gives
    the file's info; for a directory, reading its names fails or gives
    the names (sorted) with what is found under each. *)
#[warnings="-register-all"] Inductive Entry :=
| Missing (err : string)
| Present (info : FileInfo) (children : Result (list (string * Entry))).

(** Every name in the tree satisfies [ok]. *)
Fixpoint names_all (ok : string -> bool) (e : Entry) : bool :=
  match e with
  | Missing _ => true
  | Present _ (Err _) => true
  | Present _ (Ok names) =>
      (fix go (names : list (string * Entry)) : bool :=
         match names with
         | [] => true
         | (name, child) :: rest =>
             ok name && names_all ok child && go rest
         end) names
  end.

(** The three ways Walk calls its function: with the info, with the
    Lstat error, or with the info and the error of reading the
    directory. *)
Inductive Visit :=
| Visited (info : FileInfo)
| LstatFailed (err : string)
| ReadDirFailed (info : FileInfo) (err : string).

(** [filepath.Rel(root, path)] for a path that Walk made from [root] by
    appending the names [rel]: the names joined, or [.] for the root
    itself. *)
Definition rel_path (rel : list string) : string :=
  match rel with
  | [] => "."
  | _ => GoStr.Join rel "/"
  end.

(** ** filepath.Walk *)

(** The walk function gets the path, the names that lead from the root
    to it, and the visit; it acts on a state [S] and returns an error or
    nil.  The callbacks of this package never return [SkipDir] or
    [SkipAll], so the walk stops at the first error. *)
Section Walk.
Context {S : Type}.
Variable fn : string -> list string -> Visit -> S -> error * S.

Fixpoint walk (path : string) (rel : list string) (e : Entry) (s : S)
    {struct e} : error * S :=
  match e with
  | Missing err => fn path rel (LstatFailed err) s
  | Present info children =>
      if negb (IsDir info) then fn path rel (Visited info) s
      else
        match children with
        | Err err => fn path rel (ReadDirFailed info err) s
        | Ok names =>
            let '(err1, s1) := fn path rel (Visited info) s in
            match err1 with
            | Some _ => (err1, s1)
            | None =>
                (fix walk_names (names : list (string * Entry)) (s : S)
                   : error * S :=
                   match names with
                   | [] => (None, s)
                   | (name, child) :: rest =>
                       let '(err, s') :=
                         walk (Join [path; name]) (rel ++ [name]) child s in
                       match err with
                       | Some _ => (err, s')
                       | None => walk_names rest s'
                       end
                   end) names s1
            end
        end
  end.

Definition Walk (root : string) (e : Entry) (s : S) : error * S :=
  walk root [] e s.

End Walk.

(** ** archive/tar *)

Definition TypeReg : Z := 48.     (* '0' *)
Definition TypeRegA : Z := 0.     (* the zero value *)
Definition TypeSymlink : Z := 50. (* '2' *)
Definition TypeDir : Z := 53.     (* '5' *)

Record Header := mkHeader {
  Name : string;
  HMode : Z;
  HSize : Z;
  HModTime : Z;
  Typeflag : Z
}.

Definition has_suffix_slash (s : string) : bool :=
  match GoStr.slice_from (String.length s - 1) s with
  | String c EmptyString => Ascii.eqb c "/"
  | _ => false
  end.

(** A tar writer on the pipe: the headers written so far, and for each
    position whether writing a header there, or copying the file content
    after it, fails (the reader may have closed the pipe). *)
Record TarWriter := mkTarWriter {
  entries : list Header;
  header_err : nat -> error;
  copy_err : nat -> error
}.

(** [tw.WriteHeader(hdr)]; the writer replaces the zero type flag by the
    directory flag if the name ends in a slash and by the regular-file
    flag otherwise. *)
Definition WriteHeader (hdr : Header) (tw : TarWriter) : error * TarWriter :=
  match header_err tw (length (entries tw)) with
  | Some e => (Some e, tw)
  | None =>
      let flag := if (Typeflag hdr =? TypeRegA)%Z
                  then if has_suffix_slash (Name hdr) then TypeDir
                       else TypeReg
                  else Typeflag hdr in
      (None,
       {| entries := entries tw ++
            [{| Name := Name hdr; HMode := HMode hdr; HSize := HSize hdr;
                HModTime := HModTime hdr; Typeflag := flag |}];
          header_err := header_err tw;
          copy_err := copy_err tw |})
  end.

(** [io.Copy(tw, file)] after the header at the last position. *)
Definition CopyContent (tw : TarWriter) : error :=
  copy_err tw (length (entries tw)).

(** What the archive layout asks of an entry: its path is under [app/]
    (so it is not absolute), it is a directory or a regular file, and its
    mode does not carry the symbolic-link bit. *)
Definition under_app_no_symlink (h : Header) : Prop :=
  GoStr.HasPrefix (Name h) "app/" = true /\
  GoStr.byte_is (Name h) 0 "/" = false /\
  (Typeflag h = TypeDir \/ Typeflag h = TypeReg) /\
  Typeflag h <> TypeSymlink /\
  Z.land (HMode h) ModeSymlink = 0%Z.

Definition all_under_app (tw : TarWriter) : Prop :=
  Forall under_app_no_symlink (entries tw).

(** ** addDirectoryToArchive *)

(** [open_err path] is the result of [os.Open(path)]. *)
Definition add_to_archive (open_err : string -> error) (tarPath : string)
    (filePath : string) (rel : list string) (v : Visit) (tw : TarWriter)
    : error * TarWriter :=
  match v with
  | LstatFailed err | ReadDirFailed _ err => (Some err, tw)
  | Visited info =>
      let relPath := rel_path rel in
      let fullTarPath := Join [tarPath; relPath] in
      let fullTarPath := GoStr.ReplaceAll fullTarPath "\"%char "/"%char in
      if is_symlink info then (None, tw)
      else if IsDir info then
        WriteHeader {| Name := fullTarPath +:+ "/";
                       HMode := Mode info;
                       HSize := 0;
                       HModTime := ModTime info;
                       Typeflag := TypeDir |} tw
      else
        match open_err filePath with
        | Some e =>
            (Some ("failed to open file " +:+ filePath +:+ ": " +:+ e), tw)
        | None =>
            match WriteHeader {| Name := fullTarPath;
                                 HMode := Mode info;
                                 HSize := Size info;
                                 HModTime := ModTime info;
                                 Typeflag := TypeRegA |} tw with
            | (Some e, tw') =>
                (Some ("failed to write header for " +:+ filePath +:+ ": "
                       +:+ e), tw')
            | (None, tw') =>
                match CopyContent tw' with
                | Some e =>
                    (Some ("failed to write file " +:+ filePath +:+ ": "
                           +:+ e), tw')
                | None => (None, tw')
                end
            end
        end
  end.

Definition addDirectoryToArchive (open_err : string -> error)
    (srcDir tarPath : string) (tree : Entry) (tw : TarWriter)
    : error * TarWriter :=
  Walk (add_to_archive open_err tarPath) srcDir tree tw.

(** ** copyDirectory and copyFile *)

(** The steps of copyFile, any of which may fail. *)
Inductive CopyFileOutcome :=
| OpenSourceFailed (err : string)
| MkdirDestFailed (err : string)
| CreateDestFailed (err : string)
| CopyContentFailed (err : string)
| Copied.

Inductive FsOp :=
| MkdirAll (path : string) (mode : Z)
| CopyFile (src dst : string) (mode : Z).

(** The operations made on the scratch directory so far and, for the
    operation at each position, its outcome. *)
Record CopyState := mkCopyState {
  ops : list FsOp;
  mkdir_err : nat -> error;
  copy_outcome : nat -> CopyFileOutcome
}.

Definition record_op (op : FsOp) (s : CopyState) : CopyState :=
  {| ops := ops s ++ [op]; mkdir_err := mkdir_err s;
     copy_outcome := copy_outcome s |}.

Definition copyFile (src dst : string) (mode : Z) (s : CopyState)
    : error * CopyState :=
  let s' := record_op (CopyFile src dst mode) s in
  match copy_outcome s (length (ops s)) with
  | OpenSourceFailed e => (Some ("failed to open source file: " +:+ e), s')
  | MkdirDestFailed e =>
      (Some ("failed to create destination directory: " +:+ e), s')
  | CreateDestFailed e =>
      (Some ("failed to create destination file: " +:+ e), s')
  | CopyContentFailed e => (Some ("failed to copy file content: " +:+ e), s')
  | Copied => (None, s')
  end.

Definition copy_entry (dst : string) (path : string) (rel : list string)
    (v : Visit) (s : CopyState) : error * CopyState :=
  match v with
  | LstatFailed err | ReadDirFailed _ err => (Some err, s)
  | Visited info =>
      let relPath := rel_path rel in
      let dstPath := Join [dst; relPath] in
      if is_symlink info then (None, s)
      else if IsDir info then
        (mkdir_err s (length (ops s)),
         record_op (MkdirAll dstPath (Mode info)) s)
      else copyFile path dstPath (Mode info) s
  end.

Definition copyDirectory (src dst : string) (tree : Entry) (s : CopyState)
    : error * CopyState :=
  Walk (copy_entry dst) src tree s.

Definition op_mode (op : FsOp) : Z :=
  match op with
  | MkdirAll _ mode => mode
  | CopyFile _ _ mode => mode
  end.

(** No operation on the scratch directory was made for a symbolic
    link. *)
Definition no_link_ops (s : CopyState) : Prop :=
  Forall (fun op => Z.land (op_mode op) ModeSymlink = 0%Z) (ops s).

(** ** CreateArchive *)

(** The result of running a git command with [cmd.Run]: success, or an
    error which, when it is an [*exec.ExitError], carries an exit code. *)
Inductive RunOutcome :=
| RunOk
| RunFailed (exit_code : option Z) (err : string).

(** The surroundings of one CreateArchive call. *)
Record ArchiveEnv := mkArchiveEnv {
  (* [git rev-parse --show-toplevel], output trimmed *)
  rev_parse : Result string;
  (* [os.MkdirTemp] *)
  mkdir_temp : Result string;
  (* the tree at [root/.git] and the outcomes of copying it *)
  source_git : Entry;
  copy_mkdir_err : nat -> error;
  copy_file_outcome : nat -> CopyFileOutcome;
  (* the git commands run in the scratch directory *)
  checkout_head : RunOutcome;
  remote_remove : RunOutcome;
  remote_add : RunOutcome;
  config_email : RunOutcome;
  config_name : RunOutcome;
  checkout_branch : RunOutcome;
  (* the tree at [tempRoot/.git] once the commands have run *)
  scratch_git : Entry;
  (* [git ls-files]: the error of [cmd.Output], or the lines the scanner
     yields and the final [scanner.Err()] *)
  ls_files : Result (list string * error);
  (* [os.Lstat] and [os.Open] in the scratch directory *)
  lstat : string -> Result FileInfo;
  open_file : string -> error;
  (* the pipe *)
  pipe_header_err : nat -> error;
  pipe_copy_err : nat -> error
}.

(** The loop over the tracked files. *)
Fixpoint add_tracked (env : ArchiveEnv) (tempRoot : string)
    (lines : list string) (tw : TarWriter) : error * TarWriter :=
  match lines with
  | [] => (None, tw)
  | relPath :: rest =>
      if String.eqb relPath "" then add_tracked env tempRoot rest tw
      else
        let fullPath := Join [tempRoot; relPath] in
        match lstat env fullPath with
        | Err _ => add_tracked env tempRoot rest tw
        | Ok info =>
            if is_symlink info then add_tracked env tempRoot rest tw
            else if IsDir info then
              match WriteHeader {| Name := Join ["app"; relPath] +:+ "/";
                                   HMode := Mode info;
                                   HSize := 0;
                                   HModTime := ModTime info;
                                   Typeflag := TypeDir |} tw with
              | (Some e, tw') =>
                  (Some ("failed to write directory header for " +:+ relPath
                         +:+ ": " +:+ e), tw')
              | (None, tw') => add_tracked env tempRoot rest tw'
              end
            else
              match open_file env fullPath with
              | Some e =>
                  (Some ("failed to open tracked file " +:+ Quote relPath
                         +:+ ": " +:+ e +:+
                         String "010" "File may have been deleted"), tw)
              | None =>
                  match WriteHeader {| Name := Join ["app"; relPath];
                                       HMode := Mode info;
                                       HSize := Size info;
                                       HModTime := ModTime info;
                                       Typeflag := TypeRegA |} tw with
                  | (Some e, tw') =>
                      (Some ("failed to write header for " +:+ relPath +:+
                             ": " +:+ e), tw')
                  | (None, tw') =>
                      match CopyContent tw' with
                      | Some e =>
                          (Some ("failed to write file " +:+ relPath +:+ ": "
                                 +:+ e), tw')
                      | None => add_tracked env tempRoot rest tw'
                      end
                  end
              end
        end
  end.

(** [if err != nil { return fmt.Errorf(...) }] around a git command. *)
Definition run_or (r : RunOutcome) (wrap : string -> string)
    (tw : TarWriter) (k : error * TarWriter) : error * TarWriter :=
  match r with
  | RunFailed _ e => (Some (wrap e), tw)
  | RunOk => k
  end.

(** [git remote remove origin]: an exit error with code 2 (no such
    remote) is passed over, any other error is returned. *)
Definition remove_origin_error (r : RunOutcome) : error :=
  match r with
  | RunOk => None
  | RunFailed code e =>
      if bool_decide (code = Some 2%Z) then None
      else Some ("failed to remove remote " +:+ String "034" "origin" +:+
                 String "034" ": " +:+ e)
  end.

(** The closure [archive] of CreateArchive; it also returns the
    operations the copy made on the scratch directory. *)
Definition archive (env : ArchiveEnv) (remote branch gitUserName
    gitUserEmail : string) (gitRoot tempRoot : string) (tw : TarWriter)
    : error * TarWriter * list FsOp :=
  let src := Join [gitRoot; ".git"] in
  let dst := Join [tempRoot; ".git"] in
  let '(copy_err, copied) :=
    copyDirectory src dst (source_git env)
      {| ops := []; mkdir_err := copy_mkdir_err env;
         copy_outcome := copy_file_outcome env |} in
  let result :=
    match copy_err with
    | Some e =>
        (Some ("failed to copy .git directory from " +:+ Quote src +:+ " to "
               +:+ Quote dst +:+ ": " +:+ e +:+
               String "010" "Check disk space and permissions"), tw)
    | None =>
        run_or (checkout_head env)
          (fun e => "failed to checkout HEAD in temporary repo: " +:+ e +:+
             String "010" "You may have uncommitted changes or detached HEAD")
          tw
        (match remove_origin_error (remote_remove env) with
         | Some e => (Some e, tw)
         | None =>
        run_or (remote_add env)
          (fun e => "failed to add git remote " +:+ Quote remote +:+ ": "
             +:+ e +:+ String "010" "Check that the URL is valid") tw
        (run_or (config_email env)
          (fun e => "failed to configure git user.email to " +:+
             Quote gitUserEmail +:+ ": " +:+ e) tw
        (run_or (config_name env)
          (fun e => "failed to configure git user.name to " +:+
             Quote gitUserName +:+ ": " +:+ e) tw
        (run_or (checkout_branch env)
          (fun e => "failed to create and checkout branch " +:+ Quote branch
             +:+ ": " +:+ e +:+ String "010" "Branch may already exist") tw
        (match WriteHeader {| Name := "app/"; HMode := 493 (* 0755 *);
                              HSize := 0; HModTime := 0;
                              Typeflag := TypeDir |} tw with
         | (Some e, tw1) =>
             (Some ("failed to create app directory: " +:+ e), tw1)
         | (None, tw1) =>
             match addDirectoryToArchive (open_file env) dst "app/.git"
                     (scratch_git env) tw1 with
             | (Some e, tw2) =>
                 (Some ("failed to add .git directory: " +:+ e), tw2)
             | (None, tw2) =>
                 match ls_files env with
                 | Err e =>
                     (Some ("failed to list git tracked files: " +:+ e +:+
                            String "010" "Repository may be corrupted"), tw2)
                 | Ok (lines, scan_err) =>
                     match add_tracked env tempRoot lines tw2 with
                     | (Some e, tw3) => (Some e, tw3)
                     | (None, tw3) =>
                         match scan_err with
                         | Some e =>
                             (Some ("error reading git file list: " +:+ e),
                              tw3)
                         | None => (None, tw3)
                         end
                     end
                 end
             end
         end))))
         end)
    end in
  (result, ops copied).

(** The reader's view of the archive: the tar headers that went through
    the pipe and how the pipe was closed (nil for end of file), with the
    operations made on the scratch directory, which is removed when the
    producer is done. *)
Record ArchiveStream := mkArchiveStream {
  stream_entries : list Header;
  stream_err : error;
  scratch_ops : list FsOp;
  scratch_removed : bool
}.

Definition CreateArchive (env : ArchiveEnv)
    (path remote branch gitUserName gitUserEmail : string)
    : Result ArchiveStream :=
  match rev_parse env with
  | Err e =>
      Err ("failed to get git root path from " +:+ Quote path +:+ ": " +:+ e
           +:+ String "010" "Ensure you're in a git repository")
  | Ok root =>
      match mkdir_temp env with
      | Err e =>
          Err ("failed to create temporary directory: " +:+ e +:+
               String "010" "Check disk space and /tmp permissions")
      | Ok tempDir =>
          let tw := {| entries := [];
                       header_err := pipe_header_err env;
                       copy_err := pipe_copy_err env |} in
          let '(err, tw', fsops) :=
            archive env remote branch gitUserName gitUserEmail root tempDir
                    tw in
          Ok {| stream_entries := entries tw';
                stream_err :=
                  match err with
                  | Some e => Some ("failed to create git archive: " +:+ e)
                  | None => None
                  end;
                scratch_ops := fsops;
                scratch_removed := true |}
      end
  end.

End WithFmt.
End Git.

(* ===================================================================== *)
(** * internal/git: server.go *)
(* ===================================================================== *)

Module GitServer.

Section WithFmt.
(** What the verb [%q] prints for a string. *)
Variable Quote : string -> string.

(** [os.Stat(path/.git)] as NewServer looks at it: only an error for
    which [os.IsNotExist] holds makes it give up. *)
Inductive StatOutcome :=
| StatOk
| StatNotExist (err : string)
| StatOtherError (err : string).

Record Listener := mkListener {
  lid : nat;
  laddr : string
}.

(** The sockets of the host as far as the call touches them: the
    listeners that are open, and those that a goroutine serves. *)
Record Net := mkNet {
  open_listeners : list nat;
  serving : list nat
}.

(** The surroundings of one NewServer call: the results of the calls it
    makes, in the order of the code. *)
Record ServerEnv := mkServerEnv {
  abs : Result string;              (* filepath.Abs(path) *)
  stat_git : StatOutcome;           (* os.Stat(filepath.Join(path, ".git")) *)
  listen : Result Listener;         (* net.Listen("tcp", "127.0.0.1:0") *)
  look_path : Result string;        (* exec.LookPath("git") *)
  split_host_port : Result string;  (* net.SplitHostPort(addr): the port *)
  parse_int : Result Z              (* strconv.ParseInt(portString, 10, 64) *)
}.

Record Server := mkServer {
  listener : Listener;
  port : Z;
  served_path : string;
  git_binary : string
}.

Definition NewServer (env : ServerEnv) (path : string) (net : Net)
    : Result Server * Net :=
  match abs env with
  | Err e =>
      (* [path, err = filepath.Abs(path)] has already set [path] to the
         empty string *)
      (Err ("failed to resolve absolute path for " +:+ Quote "" +:+ ": "
            +:+ e +:+
            String "010" "Check that the path exists and is accessible"),
       net)
  | Ok path =>
      match stat_git env with
      | StatNotExist _ =>
          (Err ("not a git repository: " +:+ Quote path +:+
                String "010"
                  "Run 'git init' to initialize a repository or navigate to an existing one"),
           net)
      | StatOk | StatOtherError _ =>
          match listen env with
          | Err e =>
              (Err ("failed to create TCP listener on localhost: " +:+ e +:+
                    String "010"
                      "Another process may be using network resources"),
               net)
          | Ok l =>
              let net := {| open_listeners := lid l :: open_listeners net;
                            serving := serving net |} in
              match look_path env with
              | Err e =>
                  (Err ("git binary not found in PATH: " +:+ e +:+
                        String "010"
                          "Install git or ensure it's in your PATH environment variable"),
                   net)
              | Ok git =>
                  (* go server.Serve(listener) *)
                  let net := {| open_listeners := open_listeners net;
                                serving := lid l :: serving net |} in
                  match split_host_port env with
                  | Err e =>
                      (Err ("failed to split listener host/port: " +:+ e),
                       net)
                  | Ok portString =>
                      match parse_int env with
                      | Err e =>
                          (Err ("failed to parse listener port: " +:+ e), net)
                      | Ok port =>
                          (Ok {| listener := l; port := port;
                                 served_path := path; git_binary := git |},
                           net)
                      end
                  end
              end
          end
      end
  end.

(** [s.Port()] *)
Definition Port (s : Server) : Z := port s.

Definition stat_not_exist (env : ServerEnv) : bool :=
  match stat_git env with
  | StatNotExist _ => true
  | _ => false
  end.

End WithFmt.
End GitServer.

(* ===================================================================== *)
(** * main.go: the step of run that creates the container *)
(* ===================================================================== *)

Module Main.
Import Types Config Docker.

(** The values run passes in a call, in the order it writes them. *)
Inductive GoValue :=
| VString (s : string)
| VStrings (l : list string)
| VInt (n : Z)
| VDuration (d : Duration)
| VImage (image : Image).

(** The argument list of [client.CreateContainer(...)] in run, after
    [ctx]: session.ID(), image, config.Args, config.Env, config.Volumes,
    config.WorkingDir, config.StopTimeout, config.TTYRetries,
    config.RetryDelay. *)
Definition create_container_arguments (sessionID : SessionID)
    (image : Image) (config : Config) : list GoValue :=
  [ VString sessionID;
    VImage image;
    VStrings (Args config);
    VStrings (Env config);
    VStrings (Volumes config);
    VString (WorkingDir config);
    VInt (StopTimeout config);
    VInt (TTYRetries config);
    VDuration (RetryDelay config) ].

(** Binding an argument list to the parameters of CreateContainer, after
    [ctx]: sessionID, image, args, env, volumes, workingDir, network,
    stopTimeout, ttyRetries, retryDelay.  [None] when the number or the
    types of the arguments do not fit the signature. *)
Definition call_CreateContainer (Quote : string -> string)
    (create : Result string) (arguments : list GoValue)
    : option (Result Container * list Action) :=
  match arguments with
  | [ VString sessionID; VImage image; VStrings args; VStrings env;
      VStrings volumes; VString workingDir; VString network;
      VInt stopTimeout; VInt ttyRetries; VDuration retryDelay ] =>
      Some (CreateContainer Quote create sessionID image args env volumes
              workingDir network stopTimeout ttyRetries retryDelay)
  | _ => None
  end.

(** The network names among the create requests of a trace. *)
Definition requested_networks (actions : list Action) : list string :=
  omap (fun a => match a with
                 | ContainerCreate options =>
                     Some (NetworkMode (HostConfig_ options))
                 | _ => None
                 end) actions.

End Main.

(* ===================================================================== *)
(** * More of the command-line surface *)
(* ===================================================================== *)

Module Cli.
Import Config.

(** [stringSlice.String] *)
Definition stringSlice_String (s : list string) : string :=
  GoStr.Join s ",".

(** The name of the flag a [CliFlag] stands for, and its value. *)
Definition flag_name (fl : CliFlag) : string :=
  match fl with
  | FlagEnv _ => "env"
  | FlagVolume _ => "volume"
  | FlagDockerfile _ => "dockerfile"
  | FlagNetwork _ => "network"
  end.

Definition flag_value (fl : CliFlag) : string :=
  match fl with
  | FlagEnv value | FlagVolume value
  | FlagDockerfile value | FlagNetwork value => value
  end.

(** The ways of writing one flag with its value: one or two dashes, the
    value as the next argument or attached with [=]. *)
Definition spellings (fl : CliFlag) : list (list string) :=
  [ ["--" +:+ flag_name fl; flag_value fl];
    ["-" +:+ flag_name fl; flag_value fl];
    ["--" +:+ flag_name fl +:+ "=" +:+ flag_value fl];
    ["-" +:+ flag_name fl +:+ "=" +:+ flag_value fl] ].

(** A flag name that has the syntax of a flag name (not empty, does not
    start with [-] or [=], holds no [=]) and is none of the four
    registered names. *)
Definition unknown_name (name : string) : bool :=
  match name with
  | EmptyString => false
  | String c r =>
      negb (Ascii.eqb c "-") && negb (Ascii.eqb c "=")
      && match GoStr.cut_at "=" r with Some _ => false | None => true end
      && negb (String.eqb name "env") && negb (String.eqb name "volume")
      && negb (String.eqb name "dockerfile")
      && negb (String.eqb name "network")
  end.

(** The last value given to [--network] and to [--dockerfile]. *)
Definition last_network (fls : list CliFlag) : option string :=
  last (omap (fun fl => match fl with
                        | FlagNetwork value => Some value
                        | _ => None
                        end) fls).

Definition last_dockerfile (fls : list CliFlag) : option string :=
  last (omap (fun fl => match fl with
                        | FlagDockerfile value => Some value
                        | _ => None
                        end) fls).

(** The flag set as Parse holds it, with the given arguments left. *)
Definition parsing (a : list string) : Flag.FlagSet FlagVars :=
  {| Flag.fs_name := "contagent"; Flag.parsed := true;
     Flag.formal := Flag.formal flagset; Flag.args := a |}.

(** The host variables ParseConfig forwards, each with its position in
    the container environment. *)
Definition forwarded : list (string * nat) :=
  [ ("TERM", 0%nat); ("COLORTERM", 1%nat); ("ANTHROPIC_API_KEY", 2%nat) ].

End Cli.

(* ===================================================================== *)
(** * Readings of the traces of the engine driver *)
(* ===================================================================== *)

Module DockerSpec.
Import Types Config Docker.

(** The streams of the records that decode, up to the first that does
    not. *)
Fixpoint decoded_streams (body : list (Result BuildOutput)) : list string :=
  match body with
  | Ok output :: rest => Stream output :: decoded_streams rest
  | _ => []
  end.

Definition build_requests (actions : list Action) : list ImageBuildOptions :=
  omap (fun a => match a with ImageBuild options => Some options | _ => None
                 end) actions.

(** The resize requests of a trace, as (height, width). *)
Definition resize_requests (actions : list Action) : list (Z * Z) :=
  omap (fun a => match a with
                 | ContainerResize _ height width => Some (height, width)
                 | _ => None
                 end) actions.

End DockerSpec.

(* ===================================================================== *)
(** * internal/session.go *)
(* ===================================================================== *)

(** What the verb [%d] prints for an integer is the decimal numeral with
    a leading [-] for a negative number; stdpp's [pretty] on [Z] is that
    numeral. *)
Module Sessions.
Import Types.

Record Session := mkSession { id : Z }.

(** [Session{id: rand.Int64N(10000)}]; [draw] is the number drawn, which
    [rand.Int64N] takes from the half-open interval from 0 to 10000. *)
Definition GenerateSession (draw : Z) : Session := {| id := draw |}.

Definition ID (s : Session) : SessionID := "contagent-" +:+ pretty (id s).

Definition String_ (s : Session) : string := ID s.

Definition Branch (s : Session) : string := "contagent/" +:+ pretty (id s).

(** A decimal digit, and a string of digits. *)
Definition is_digit (c : ascii) : bool :=
  (48 <=? nat_of_ascii c)%nat && (nat_of_ascii c <=? 57)%nat.

Fixpoint all_digits (s : string) : bool :=
  match s with
  | EmptyString => true
  | String c r => is_digit c && all_digits r
  end.

Fixpoint no_slash (s : string) : bool :=
  match s with
  | EmptyString => true
  | String c r => negb (Ascii.eqb c "/") && no_slash r
  end.

End Sessions.

(* ===================================================================== *)
(** * internal/docker/test_helpers_test.go: the mock writer's helpers *)
(* ===================================================================== *)

Module MockWriter.

(** [byte('0' + n%10)] *)
Definition digit_byte (d : Z) : ascii :=
  ascii_of_N (Z.to_N ((48 + d) mod 256)).

(** The loop [for n > 0 { buf[i] = ...; n /= 10; i-- }] on the 20-byte
    buffer.  [slots] is [i+1], the number of bytes still free at the
    front, and [acc] is [buf[i+1:]], the bytes written so far.  Writing
    with no byte free is an index out of range: [None]. *)
Fixpoint itoa_digits (slots : nat) (n : Z) (acc : string)
    : option (nat * string) :=
  if (0 <? n)%Z then
    match slots with
    | O => None
    | S slots' =>
        itoa_digits slots' (Z.quot n 10)
                    (String (digit_byte (Z.rem n 10)) acc)
    end
  else Some (slots, acc).

(** [itoa64]; the argument is an int64, and [-n] wraps around. *)
Definition itoa64 (n : Z) : option string :=
  if (n =? 0)%Z then Some "0"
  else
    let negative := (n <? 0)%Z in
    let n := if negative then Docker.wrap64 (- n) else n in
    match itoa_digits 20 n EmptyString with
    | None => None
    | Some (slots, acc) =>
        if negative then
          match slots with
          | O => None
          | S _ => Some (String "-" acc)
          end
        else Some acc
    end.

(** [itoa] has the same body on [int], which is 64 bits wide on the
    platforms the engine runs on. *)
Definition itoa (n : Z) : option string := itoa64 n.

(** The values the sink methods are called with. *)
Inductive Value :=
| VString (s : string)
| VInt (n : Z)
| VInt64 (n : Z)
| VError (msg : string)
| VOther.

Definition toString (v : Value) : option string :=
  match v with
  | VString val => Some val
  | VInt val => itoa val
  | VInt64 val => itoa64 val
  | VError msg => Some msg
  | VOther => Some EmptyString
  end.

(** The loop of replaceFirst from index [i] on.  The bound
    [len(s)-len(old)+1] is an int and may be zero or negative; the index
    never passes [len(s)], so [S (len(s))] turns are enough. *)
Fixpoint replaceFirst_loop (fuel i : nat) (s old new : string) : string :=
  match fuel with
  | O => s
  | S fuel' =>
      if (Z.of_nat i <?
          Z.of_nat (String.length s) - Z.of_nat (String.length old) + 1)%Z
      then
        if String.eqb (String.substring i (String.length old) s) old then
          String.substring 0 i s +:+ new +:+
          GoStr.slice_from (i + String.length old) s
        else replaceFirst_loop fuel' (S i) s old new
      else s
  end.

Definition replaceFirst (s old new : string) : string :=
  replaceFirst_loop (S (String.length s)) 0 s old new.

(** [sprint]: the values as text, separated by single spaces. *)
Fixpoint sprint_from (i : nat) (v : list Value) : option string :=
  match v with
  | [] => Some EmptyString
  | val :: rest =>
      match toString val, sprint_from (S i) rest with
      | Some text, Some more =>
          Some ((if (0 <? i)%nat then " " else "") +:+ text +:+ more)
      | _, _ => None
      end
  end.

Definition sprint (v : list Value) : option string := sprint_from 0 v.

(** [sprintf]: each value in turn replaces the first [%v], then the first
    [%s], then the first [%d] of the text reached so far. *)
Fixpoint sprintf (format : string) (v : list Value) : option string :=
  match v with
  | [] => Some format
  | val :: rest =>
      match toString val with
      | None => None
      | Some text =>
          let result := replaceFirst format "%v" text in
          let result := replaceFirst result "%s" text in
          let result := replaceFirst result "%d" text in
          sprintf result rest
      end
  end.

Definition sprintln (v : list Value) : option string :=
  match sprint v with
  | Some text => Some (text +:+ String "010" EmptyString)
  | None => None
  end.

(** The mock writer: one buffer for everything. *)
Record mockWriter := mkMockWriter { buf : string }.

Definition newMockWriter : mockWriter := {| buf := EmptyString |}.

Definition WriteString (m : mockWriter) (s : option string)
    : option mockWriter :=
  match s with
  | Some text => Some {| buf := buf m +:+ text |}
  | None => None
  end.

Definition Print (m : mockWriter) (v : list Value) := WriteString m (sprint v).
Definition Printf (m : mockWriter) (format : string) (v : list Value) :=
  WriteString m (sprintf format v).
Definition Println (m : mockWriter) (v : list Value) :=
  WriteString m (sprintln v).
Definition Warning (m : mockWriter) (v : list Value) :=
  WriteString m (option_map (fun t => "Warning: " +:+ t) (sprintln v)).
Definition Warningf (m : mockWriter) (format : string) (v : list Value) :=
  WriteString m (option_map
                   (fun t => "Warning: " +:+ t +:+ String "010" EmptyString)
                   (sprintf format v)).
Definition Fatal (m : mockWriter) (v : list Value) :=
  WriteString m (option_map (fun t => "Fatal: " +:+ t) (sprintln v)).
Definition Fatalf (m : mockWriter) (format : string) (v : list Value) :=
  WriteString m (option_map
                   (fun t => "Fatal: " +:+ t +:+ String "010" EmptyString)
                   (sprintf format v)).
Definition String_ (m : mockWriter) : string := buf m.

(** [old] stands in [s] at index [i], and at some index below [n]. *)
Definition occurs_at (i : nat) (s old : string) : bool :=
  String.eqb (String.substring i (String.length old) s) old.

Definition occurs_before (n : nat) (s old : string) : bool :=
  existsb (fun i => occurs_at i s old) (seq 0 n).

(** No byte of the string is a percent sign. *)
Fixpoint no_percent (s : string) : bool :=
  match s with
  | EmptyString => true
  | String c r => negb (Ascii.eqb c "%") && no_percent r
  end.

End MockWriter.

(* ===================================================================== *)
(** * Concrete inputs used by the examples below *)
(* ===================================================================== *)

Module Scenarios.
Import Cleanup Config Docker Git GitServer.

(** ** Cleanup ledgers *)

(** A ledger over a counter: the single entry counts its own calls. *)
Definition counting_entry : cleanupFunc nat :=
  {| name := "git-server"; fn := fun n => (None, S n) |}.

Definition counting_ledger : CleanupManager nat :=
  Add (name counting_entry) (fn counting_entry) NewCleanupManager.

(** The closures of the cleanup tests: an entry that appends its name to
    the list [order] and returns the given error. *)
Definition recorder (nm : string) (err : error) : cleanupFunc (list string) :=
  {| name := nm; fn := fun order => (err, order ++ [nm]) |}.


(** ** Hosts for NewServer *)

(** A host where the repository is there and the listener can be bound,
    but no git binary is in PATH. *)
Definition env_without_git : ServerEnv :=
  {| abs := Ok "/home/dev/project";
     stat_git := StatOk;
     listen := Ok {| lid := 7; laddr := "127.0.0.1:40123" |};
     look_path := Err "exec: git: executable file not found in $PATH";
     split_host_port := Ok "40123";
     parse_int := Ok 40123%Z |}.

(** A host where everything NewServer needs is in place, except that the
    working directory cannot be determined to make the path absolute. *)
Definition env_without_cwd : ServerEnv :=
  {| abs := Err "getwd: no such file or directory";
     stat_git := StatOk;
     listen := Ok {| lid := 7; laddr := "127.0.0.1:40123" |};
     look_path := Ok "/usr/bin/git";
     split_host_port := Ok "40123";
     parse_int := Ok 40123%Z |}.

Definition no_sockets : Net := {| open_listeners := []; serving := [] |}.


(** ** A build whose second record is an error record *)

Definition demo_outputs : list BuildOutput :=
  [ {| Stream := "Step 1/2 : FROM alpine:latest";
       ErrorDetail_Code := 0; ErrorDetail_Message := "" |};
    {| Stream := "";
       ErrorDetail_Code := 1;
       ErrorDetail_Message := "dockerfile parse error" |};
    {| Stream := "Successfully built abc123";
       ErrorDetail_Code := 0; ErrorDetail_Message := "" |} ].

Definition demo_build_env : BuildEnv :=
  {| read_file := Ok "FROM alpine:latest";
     image_build := Ok (map Ok demo_outputs);
     tar_select := TarDefault;
     ctx_err_at := fun _ => None |}.

(** ** A terminal whose first three resize requests fail *)



(** ** A repository with a tracked file and a tracked symbolic link *)

Definition dir_info : FileInfo :=
  {| Mode := 2147484141 (* ModeDir | 0755 *); Size := 4096; ModTime := 1 |}.
Definition file_info : FileInfo :=
  {| Mode := 420 (* 0644 *); Size := 16; ModTime := 2 |}.
Definition link_info : FileInfo :=
  {| Mode := 134218239 (* ModeSymlink | 0777 *); Size := 11; ModTime := 3 |}.

Definition demo_git_dir : Entry :=
  Present dir_info
    (Ok [ ("HEAD", Present file_info (Ok []));
          ("hooks", Present dir_info
                      (Ok [("pre-commit", Present link_info (Ok []))]));
          ("config", Present file_info (Ok [])) ]).

Definition demo_archive_env : ArchiveEnv :=
  {| rev_parse := Ok "/home/dev/project";
     mkdir_temp := Ok "/tmp/contagent-checkout-1";
     source_git := demo_git_dir;
     copy_mkdir_err := fun _ => None;
     copy_file_outcome := fun _ => Copied;
     checkout_head := RunOk;
     remote_remove := RunFailed (Some 2%Z) "exit status 2";
     remote_add := RunOk;
     config_email := RunOk;
     config_name := RunOk;
     checkout_branch := RunOk;
     scratch_git := demo_git_dir;
     ls_files := Ok (["regular.txt"; "link.txt"], None);
     lstat := fun p =>
       if String.eqb p "/tmp/contagent-checkout-1/regular.txt"
       then Ok file_info
       else if String.eqb p "/tmp/contagent-checkout-1/link.txt"
       then Ok link_info
       else Err "no such file or directory";
     open_file := fun _ => None;
     pipe_header_err := fun _ => None;
     pipe_copy_err := fun _ => None |}.

Definition demo_stream : ArchiveStream :=
  Eval vm_compute in
    match CreateArchive (fun s => s) demo_archive_env "/home/dev/project"
            "http://host.docker.internal:40123" "contagent/42"
            "Contagent" "contagent@example.com" with
    | Ok stream => stream
    | Err _ => {| stream_entries := []; stream_err := None;
                  scratch_ops := []; scratch_removed := false |}
    end.

End Scenarios.


(* ===================================================================== *)
(** * internal/git: what the archive holds and where the copy writes *)
(* ===================================================================== *)

Module GitSpec.
Import Filepath Git.

(** The header CreateArchive writes first. *)
Definition app_directory : Header :=
  {| Name := "app/"; HMode := 493; HSize := 0; HModTime := 0;
     Typeflag := TypeDir |}.


(** The archive starts with that header. *)
Definition starts_with_app (tw : TarWriter) : Prop :=
  hd_error (entries tw) = Some app_directory.




End GitSpec.

(* ===================================================================== *)
(** * More concrete inputs *)
(* ===================================================================== *)

Module MoreScenarios.
Import Config Docker Git Scenarios.

(** ** A build that goes through *)

Definition clean_outputs : list BuildOutput :=
  [ {| Stream := "Step 1/1 : FROM alpine:latest";
       ErrorDetail_Code := 0; ErrorDetail_Message := "" |};
    {| Stream := "Successfully built abc123";
       ErrorDetail_Code := 0; ErrorDetail_Message := "" |} ].

Definition clean_build_env : BuildEnv :=
  {| read_file := Ok "FROM alpine:latest";
     image_build := Ok (map Ok clean_outputs);
     tar_select := TarDefault;
     ctx_err_at := fun _ => None |}.

(** ** A terminal that never accepts a resize request *)

Definition stubborn_oracle : ResizeOracle :=
  {| size_at := fun _ => (24, 80)%Z;
     engine_at := fun _ => Some "container is not running" |}.

Definition demo_tty : TTY :=
  NewTTY "3f2a9c" DefaultTTYRetries DefaultRetryDelay.

(** The retry task when nothing cancels it, and when the context is done
    from the third turn on. *)
Definition stubborn_trace : list Action :=
  Eval vm_compute in
    default [] (retry_task (Monitor stubborn_oracle demo_tty
                              (fun _ => false))).

Definition cancelled_from_2 (k : nat) : bool := (2 <=? k)%nat.

Definition cancelled_trace : list Action :=
  Eval vm_compute in
    default [] (retry_task (Monitor stubborn_oracle demo_tty
                              cancelled_from_2)).

(** ** The tracked files of the demo repository, with an empty line *)




End MoreScenarios.
(* ===================================================================== *)
(** * Properties of the cleanup ledger *)
(* ===================================================================== *)

Module CleanupFacts.
Import Cleanup Scenarios.
Section WithWorld.
Context {World : Type}.
Implicit Types (m : CleanupManager World) (c : cleanupFunc World)
               (w : World).

Lemma cleanupFunc_eta c : {| name := name c; fn := fn c |} = c.
Proof. by destruct c. Qed.

Lemma funcs_add_all entries m :
  funcs (add_all entries m) = rev entries ++ funcs m.
Proof.
  revert m. induction entries as [|c cs IH]; intros m; [done|].
  cbn [add_all foldl]. fold (add_all cs (Add (name c) (fn c) m)).
  rewrite IH. cbn [Add funcs rev]. rewrite cleanupFunc_eta.
  by rewrite <- app_assoc.
Qed.

(** The loop visits the whole list whatever the entries return. *)
Lemma foldl_execute_step cs (o : Outcome World) :
  let o' := foldl execute_step o cs in
  invoked o' = invoked o ++ cs /\
  world o' = run_in_order cs (world o).
Proof.
  revert o. induction cs as [|c cs IH]; intros o; cbn [foldl].
  - by rewrite app_nil_r.
  - destruct (IH (execute_step o c)) as [Hi Hw]. cbn zeta in *.
    rewrite Hi, Hw. unfold run_in_order. cbn [foldl].
    unfold execute_step.
    destruct (fn c (world o)) as [err w'] eqn:E. cbn.
    by rewrite <- app_assoc.
Qed.

Lemma Execute_invoked m w : invoked (snd (Execute m w)) = funcs m.
Proof.
  unfold Execute. cbn [snd].
  by destruct (foldl_execute_step (funcs m)
                 {| world := w; invoked := []; logged := [] |}) as [-> _].
Qed.

Lemma Execute_world m w :
  world (snd (Execute m w)) = run_in_order (funcs m) w.
Proof.
  unfold Execute. cbn [snd].
  by destruct (foldl_execute_step (funcs m)
                 {| world := w; invoked := []; logged := [] |}) as [_ ->].
Qed.

(** C1. For every ledger and every sequence of entries pushed with Add,
    Execute calls the release action of every entry exactly once, in
    reverse insertion order: the sequence of calls is the reversed
    sequence of pushed entries (followed by what the ledger held
    before), and the final state is the one obtained by running them in
    that order.  No assumption is made on what the entries return, so an
    entry that returns an error does not stop the later ones. *)
Theorem C1_execute_reverse_insertion_order
    (entries : list (cleanupFunc World)) m w :
  let o := snd (Execute (add_all entries m) w) in
  invoked o = rev entries ++ funcs m /\
  world o = run_in_order (rev entries ++ funcs m) w /\
  invoked (snd (Execute (add_all entries NewCleanupManager) w))
    = rev entries.
Proof.
  cbn zeta. rewrite Execute_invoked, Execute_world, Execute_invoked.
  rewrite !funcs_add_all. cbn [NewCleanupManager funcs].
  by rewrite app_nil_r.
Qed.

(** The ledger is not consumed by Execute. *)
Lemma Execute_keeps_funcs m w : fst (Execute m w) = m.
Proof. done. Qed.

(** C2 (amended). Execute leaves the ledger as it found it, so a second
    Execute calls every release action again, in the same order as the
    first one; it calls nothing exactly when the ledger is empty. *)
Theorem C2_execute_again_invokes_again m w :
  let '(m1, o1) := Execute m w in
  let '(m2, o2) := Execute m1 (world o1) in
  m1 = m /\ m2 = m /\
  invoked o2 = invoked o1 /\
  (invoked o2 = [] <-> funcs m = []).
Proof.
  destruct (Execute m w) as [m1 o1] eqn:E1.
  destruct (Execute m1 (world o1)) as [m2 o2] eqn:E2.
  assert (m1 = m) as -> by (by inversion E1).
  assert (m2 = m) as -> by (by inversion E2).
  pose proof (Execute_invoked m w) as H1.
  pose proof (Execute_invoked m (world o1)) as H2.
  rewrite E1 in H1. rewrite E2 in H2. cbn [snd] in *.
  by rewrite H1, H2.
Qed.

End WithWorld.

(** C2 (as stated) fails: after one Execute, a second Execute is not a
    no-op; it calls the release action of the entry a second time. *)
Lemma C2_repeated_execute_not_noop :
  let '(m1, o1) := Execute counting_ledger 0 in
  let '(m2, o2) := Execute m1 (world o1) in
  world o1 = 1 /\
  invoked o2 = [counting_entry] /\ invoked o2 <> [] /\
  world o2 = 2.
Proof. cbn. done. Qed.

(** The cleanup tests: entries first, second, third append their name
    to the order list; second fails. *)
Example Execute_ContinuesOnError :
  let m := add_all [recorder "first" None;
                    recorder "second" (Some "second failed");
                    recorder "third" None] NewCleanupManager in
  let o := snd (Execute m []) in
  world o = ["third"; "second"; "first"] /\
  logged o = ["cleanup failed for second: second failed"].
Proof. done. Qed.

End CleanupFacts.
(* ===================================================================== *)
(** * Properties of the flag parser and of ParseConfig *)
(* ===================================================================== *)

Module FlagFacts.
Import Flag.
Section WithStore.
Context {V : Type}.
Implicit Types (f : FlagSet V) (v : V).

(** An iteration of the loop that asks for another one has removed at
    least one argument. *)
Lemma parseOne_seen_shrinks f v e f' v' :
  parseOne f v = (true, e, f', v') ->
  (length (args f') < length (args f))%nat.
Proof.
  unfold parseOne. intros H.
  repeat (case_match; simplify_eq; cbn in *; try lia).
Qed.

(** More iterations than arguments are never needed: the loop has stopped
    by itself before the bound is reached. *)
Lemma Parse_loop_fuel fuel f v :
  (length (args f) < fuel)%nat ->
  Parse_loop fuel f v = Parse_loop (S fuel) f v.
Proof.
  revert f v. induction fuel as [|n IH]; intros f v Hlen; [lia|].
  cbn [Parse_loop].
  destruct (parseOne f v) as [[[seen e] f'] v'] eqn:E.
  destruct seen; [|done].
  apply parseOne_seen_shrinks in E.
  rewrite IH by lia. done.
Qed.

Lemma Parse_loop_fuel_ge fuel fuel' f v :
  (length (args f) < fuel)%nat -> (fuel <= fuel')%nat ->
  Parse_loop fuel' f v = Parse_loop fuel f v.
Proof.
  intros Hlen Hle. induction Hle as [|m Hle IH]; [done|].
  rewrite <- Parse_loop_fuel by lia. done.
Qed.

End WithStore.
End FlagFacts.

Module ConfigFacts.
Import Config.

Lemma foldl_lookup_step (m : gmap string string) environment key :
  foldl (fun (lookup : gmap string string) variable =>
           let '(k, value, ok) := GoStr.Cut variable "=" in
           if ok then <[k := value]> lookup else lookup)
        m environment !! key
  = match host_value key environment with
    | Some value => Some value
    | None => m !! key
    end.
Proof.
  revert m. induction environment as [|variable rest IH]; intros m; [done|].
  cbn [foldl host_value]. rewrite IH.
  destruct (host_value key rest) as [value|]; [done|].
  unfold GoStr.Cut.
  destruct (GoStr.cut_at "=" variable) as [[k value]|]; [|done].
  destruct (String.eqb_spec k key) as [->|Hne].
  - by rewrite lookup_insert_eq.
  - by rewrite lookup_insert_ne.
Qed.

Lemma build_lookup_spec environment key :
  build_lookup environment !! key = host_value key environment.
Proof.
  unfold build_lookup. rewrite foldl_lookup_step.
  by destruct (host_value key environment).
Qed.


(** ** Arguments of the documented shape *)

Section Wellformed.
Variables (nm : string) (p : bool).

Let fs_with (a : list string) : Flag.FlagSet FlagVars :=
  {| Flag.fs_name := nm; Flag.parsed := p;
     Flag.formal := Flag.formal flagset; Flag.args := a |}.

Lemma parseOne_render fl more v :
  Flag.parseOne (fs_with (render fl ++ more)) v
  = (true, None, fs_with more, store v fl).
Proof. destruct fl; vm_compute; reflexivity. Qed.

Lemma parseOne_starts_command rest v :
  starts_command rest = true ->
  Flag.parseOne (fs_with rest) v = (false, None, fs_with rest, v).
Proof.
  destruct rest as [|s rest]; [done|]. cbn [starts_command]. intros Hs.
  unfold Flag.parseOne. cbn [Flag.args fs_with]. by rewrite Hs.
Qed.

Lemma Parse_loop_wellformed fls rest fuel v :
  starts_command rest = true ->
  (length fls < fuel)%nat ->
  Flag.Parse_loop fuel (fs_with (concat (map render fls) ++ rest)) v
  = (None, fs_with rest, foldl store v fls).
Proof.
  intros Hrest. revert fuel v.
  induction fls as [|fl fls IH]; intros fuel v Hfuel;
    (destruct fuel as [|fuel]; [cbn in Hfuel; lia|]).
  - cbn [map concat app Flag.Parse_loop foldl].
    by rewrite parseOne_starts_command.
  - cbn [map concat Flag.Parse_loop foldl]. rewrite <- app_assoc.
    rewrite parseOne_render. apply IH. cbn in Hfuel. lia.
Qed.

End Wellformed.

Lemma length_concat_render fls :
  length (concat (map render fls)) = (2 * length fls)%nat.
Proof.
  induction fls as [|fl fls IH]; [done|].
  cbn [map concat]. rewrite length_app, IH. destruct fl; cbn; lia.
Qed.

Lemma additionalEnv_foldl_store fls v :
  additionalEnv (foldl store v fls) = additionalEnv v ++ env_values fls.
Proof.
  revert v. induction fls as [|fl fls IH]; intros v; cbn [foldl].
  - by rewrite app_nil_r.
  - rewrite IH. destruct fl; cbn; [by rewrite <- app_assoc|done..].
Qed.

Lemma volumes_foldl_store fls v :
  volumes (foldl store v fls) = volumes v ++ volume_values fls.
Proof.
  revert v. induction fls as [|fl fls IH]; intros v; cbn [foldl].
  - by rewrite app_nil_r.
  - rewrite IH. destruct fl; cbn; [done|by rewrite <- app_assoc|done..].
Qed.

(** For arguments made of recognised flags, each followed by its value,
    and then a command: the --env values reach the environment in order
    after the four fixed entries, the --volume values follow the two
    default mounts in order, and the command is the command vector. *)
Lemma ParseConfig_flags_then_command fls rest environment :
  starts_command rest = true ->
  let c := ParseConfig (concat (map render fls) ++ rest) environment in
  drop 4 (Env c) = env_values fls /\
  Volumes c = defaultVolumes ++ volume_values fls /\
  Args c = rest /\
  DockerfilePath c = dockerfilePath (foldl store initial_vars fls) /\
  Network c = network (foldl store initial_vars fls).
Proof.
  intros Hrest. unfold ParseConfig, Flag.Parse.
  rewrite (Parse_loop_wellformed _ _ fls rest _ initial_vars Hrest).
  - cbn [Env Volumes Args DockerfilePath Network Flag.Args Flag.args].
    rewrite additionalEnv_foldl_store, volumes_foldl_store. done.
  - rewrite length_app, length_concat_render. lia.
Qed.


(** C10. Whatever the arguments and the host environment, ParseConfig
    returns the image name contagent:latest, the working directory /app,
    stop timeout 10, 10 TTY resize retries with base delay 10ms, and the
    committer identity Contagent <contagent@example.com>. *)
Theorem C10_ParseConfig_fixed_constants (args environment : list string) :
  let c := ParseConfig args environment in
  ImageName c = "contagent:latest" /\
  WorkingDir c = "/app" /\
  StopTimeout c = 10%Z /\
  TTYRetries c = 10%Z /\
  RetryDelay c = 10000000%Z /\
  RetryDelay c = (10 * Millisecond)%Z /\
  GitUser c = {| Name := "Contagent"; Email := "contagent@example.com" |}.
Proof.
  unfold ParseConfig.
  destruct (Flag.Parse flagset initial_vars args) as [[e fs] vars].
  cbn. done.
Qed.

Example ParseConfig_scenario6 :
  let c := ParseConfig ["--env"; "K=V"; "--volume"; "/a:/b"; "cmd"] [] in
  Env c = ["TERM=xterm-256color"; "COLORTERM=truecolor"; "ANTHROPIC_API_KEY=";
           "SSH_AUTH_SOCK=/run/host-services/ssh-auth.sock"; "K=V"] /\
  Volumes c = ["/var/run/docker.sock:/var/run/docker.sock";
    "/run/host-services/ssh-auth.sock:/run/host-services/ssh-auth.sock";
    "/a:/b"] /\
  Args c = ["cmd"] /\ Network c = "default".
Proof. vm_compute. done. Qed.

End ConfigFacts.
(* ===================================================================== *)
(** * Properties of the engine driver and of the terminal bridge *)
(* ===================================================================== *)

Module DockerFacts.
Import Config Docker.

Section WithFmt.
Variable Quote : string -> string.
Variable Itoa : Z -> string.

(** ** BuildImage *)

Lemma ok_prefix_first_error_split outputs :
  match first_error outputs with
  | Some bad =>
      ErrorDetail_Code bad <> 0%Z /\
      exists later, outputs = ok_prefix outputs ++ bad :: later
  | None => outputs = ok_prefix outputs
  end /\
  Forall (fun o => ErrorDetail_Code o = 0%Z) (ok_prefix outputs).
Proof.
  induction outputs as [|o rest [IH1 IH2]]; cbn [first_error ok_prefix].
  - done.
  - destruct (Z.eqb_spec (ErrorDetail_Code o) 0) as [Hz|Hnz].
    + split; [|by constructor].
      destruct (first_error rest) as [bad|].
      * destruct IH1 as [Hbad [later Hl]]. split; [done|].
        exists later. cbn. by rewrite <- Hl.
      * cbn. by rewrite <- IH1.
    + split; [|by constructor]. split; [done|]. by exists rest.
Qed.

Lemma decode_loop_no_cancel ctx_err i outputs :
  (forall k, ctx_err k = None) ->
  decode_loop ctx_err i (map Ok outputs)
  = (match first_error outputs with
     | Some bad => Some (build_failed_message (ErrorDetail_Message bad))
     | None => None
     end,
     map (fun o => Print (Stream o)) (ok_prefix outputs)).
Proof.
  intros Hctx. revert i.
  induction outputs as [|o rest IH]; intros i; [done|].
  cbn [map decode_loop first_error ok_prefix]. rewrite Hctx.
  destruct (ErrorDetail_Code o =? 0)%Z; cbn [negb]; [|done].
  by rewrite IH.
Qed.

Lemma printed_request_prints request outputs :
  (forall s, request <> Print s) ->
  printed (request :: map (fun o => Print (Stream o)) outputs)
  = map Stream outputs.
Proof.
  intros Hreq. unfold printed. cbn [omap].
  destruct request; try (by destruct (Hreq s)).
  all: cbn; induction outputs as [|o rest IH]; [done|]; cbn; by f_equal.
Qed.

Lemma build_failed_message_contains message :
  GoStr.Contains (build_failed_message message) message.
Proof.
  exists "docker build failed: ",
    (String "010" "Check your Dockerfile syntax and base image availability").
  done.
Qed.

(** C7. When the Dockerfile is read, the build request is accepted, the
    tar goroutine has not failed, the context is not cancelled and every
    record decodes: BuildImage prints, in order, the stream fragment of
    each record that precedes the first record with a nonzero error code
    (all of them if there is none) and nothing else; at that first record
    it stops with an error that contains the record's message; without
    such a record it returns the image named as requested. *)
Theorem C7_BuildImage_stream_and_first_error
    (env : BuildEnv) (dockerfilePath : string) (imageName : Types.ImageName)
    (dockerfile : string) (outputs : list BuildOutput) :
  read_file env = Ok dockerfile ->
  image_build env = Ok (map Ok outputs) ->
  tar_select env = TarDone None \/ tar_select env = TarDefault ->
  (forall k, ctx_err_at env k = None) ->
  let '(result, actions) := BuildImage Quote env dockerfilePath imageName in
  printed actions = map Stream (ok_prefix outputs) /\
  Forall (fun o => ErrorDetail_Code o = 0%Z) (ok_prefix outputs) /\
  match first_error outputs with
  | Some bad =>
      ErrorDetail_Code bad <> 0%Z /\
      (exists later, outputs = ok_prefix outputs ++ bad :: later) /\
      exists msg, result = Err msg /\
                  GoStr.Contains msg (ErrorDetail_Message bad)
  | None =>
      outputs = ok_prefix outputs /\
      result = Ok {| Name := imageName |}
  end.
Proof.
  intros Hread Hbuild Htar Hctx. unfold BuildImage.
  rewrite Hread, Hbuild.
  pose proof (ok_prefix_first_error_split outputs) as [Hsplit Hall].
  rewrite (decode_loop_no_cancel _ 0 outputs Hctx).
  destruct (first_error outputs) as [bad|].
  - destruct Htar as [-> | ->];
      (split; [by apply printed_request_prints|]; split; [done|];
       destruct Hsplit as [Hbad Hlater]; split; [done|]; split; [done|];
       eexists; split; [done|]; apply build_failed_message_contains).
  - destruct Htar as [-> | ->];
      (split; [by apply printed_request_prints|]; done).
Qed.

(** ** Wait *)

(** C4. When the interrupt case of the select in Wait fires, Wait makes
    exactly one graceful-stop request, for this container and with the
    stop timeout of the handle, and returns nil whether or not the stop
    request succeeds; a failed stop only adds a warning. *)
Theorem C4_Wait_interrupt_stops_once_returns_nil
    (c : Container) (stop : error) :
  let '(err, actions) := Wait Quote Itoa c Signal stop in
  err = None /\
  stop_requests actions = [(ID c, CStopTimeout c)] /\
  actions =
    [ContainerWait (ID c) WaitConditionNotRunning;
     Println (String "010" "Received signal, stopping container...");
     ContainerStop (ID c) (CStopTimeout c)]
    ++ match stop with
       | Some e => [Warningf ("failed to stop container: " +:+ e)]
       | None => []
       end.
Proof. by destruct stop. Qed.

(** ** TTY.Monitor and Attach *)


Lemma delays_app a b : delays (a ++ b) = delays a ++ delays b.
Proof. unfold delays. by rewrite omap_app. Qed.

Lemma fatal_app a b : fatal (a ++ b) = fatal a || fatal b.
Proof. unfold fatal. by rewrite existsb_app. Qed.

Lemma delays_After d l : delays (After d :: l) = d :: delays l.
Proof. done. Qed.

Lemma fatal_After d l : fatal (After d :: l) = fatal l.
Proof. done. Qed.




End WithFmt.
End DockerFacts.
(* ===================================================================== *)
(** * Properties of Clean and Join on plain paths *)
(* ===================================================================== *)

Module FilepathFacts.
Import Filepath.

Lemma append_cons a s t : String a s +:+ t = String a (s +:+ t).
Proof. done. Qed.

Lemma split_on_cons c s : exists h t, split_on c s = h :: t.
Proof.
  destruct s as [|a r]; cbn [split_on]; [by eexists _, _|].
  destruct (Ascii.eqb a c); [by eexists _, _|].
  destruct (split_on c r); by eexists _, _.
Qed.

(** Splitting distributes over a separator placed between two strings. *)
Lemma split_on_app c a b :
  split_on c (a +:+ String c b) = split_on c a ++ split_on c b.
Proof.
  induction a as [|x a IH].
  - change ("" +:+ String c b) with (String c b). cbn [split_on].
    by rewrite Ascii.eqb_refl.
  - rewrite append_cons. cbn [split_on].
    destruct (Ascii.eqb x c); [by rewrite IH|].
    rewrite IH. destruct (split_on_cons c a) as (h & t & ->). done.
Qed.

(** Without [..] (and without empty or [.] components) Clean keeps every
    component. *)
Lemma foldl_clean_step_valid rooted comps out :
  forallb valid_component comps = true ->
  foldl (clean_step rooted) out comps = rev comps ++ out.
Proof.
  revert out. induction comps as [|comp comps IH]; intros out Hv; [done|].
  cbn [forallb] in Hv. apply andb_prop in Hv as [Hc Hv].
  cbn [foldl rev]. rewrite IH by done. rewrite <- app_assoc. cbn [app].
  f_equal. unfold clean_step. unfold valid_component in Hc.
  destruct (String.eqb comp ""), (String.eqb comp "."),
    (String.eqb comp ".."); done.
Qed.

Lemma plain_path_not_rooted s :
  plain_path s = true -> GoStr.byte_is s 0 Separator = false.
Proof.
  unfold plain_path, GoStr.byte_is. destruct s as [|a r]; [done|].
  cbn [split_on String.get]. destruct (Ascii.eqb a Separator); [|done].
  cbn [forallb]. done.
Qed.


Lemma Clean_plain_path s :
  plain_path s = true ->
  Clean s = GoStr.Join (split_on Separator s) "/".
Proof.
  intros Hv. unfold Clean.
  destruct (String.eqb_spec s "") as [->|_]; [done|].
  rewrite plain_path_not_rooted by done.
  rewrite foldl_clean_step_valid by done.
  rewrite app_nil_r, rev_involutive.
  destruct (split_on_cons Separator s) as (h & t & ->). done.
Qed.

Lemma plain_path_app a b :
  plain_path a = true -> plain_path b = true ->
  plain_path (a +:+ String Separator b) = true.
Proof.
  unfold plain_path. intros Ha Hb.
  by rewrite split_on_app, forallb_app, Ha, Hb.
Qed.

(** Names joined by separators form a plain path. *)
Lemma plain_path_Join names :
  names <> [] -> Forall (fun n => plain_path n = true) names ->
  plain_path (GoStr.Join names "/") = true.
Proof.
  intros Hne Hall. induction Hall as [|n rest Hn Hrest IH]; [done|].
  destruct rest as [|n' rest]; [done|].
  change (GoStr.Join (n :: n' :: rest) "/")
    with (n +:+ "/" +:+ GoStr.Join (n' :: rest) "/").
  apply plain_path_app; [done|]. by apply IH.
Qed.

(** Joining a plain path onto a plain base gives the base, a separator
    and then the components of the path. *)
Lemma Join_plain base relPath :
  plain_path base = true -> plain_path relPath = true ->
  Join [base; relPath]
  = GoStr.Join (split_on Separator base ++ split_on Separator relPath) "/".
Proof.
  intros Hb Hr. cbn [Join].
  destruct (String.eqb_spec base "") as [->|_]; [done|].
  change (GoStr.Join [base; relPath] "/")
    with (base +:+ String Separator relPath).
  rewrite Clean_plain_path by (by apply plain_path_app).
  by rewrite split_on_app.
Qed.

Lemma HasPrefix_app s t p :
  GoStr.HasPrefix s p = true -> GoStr.HasPrefix (s +:+ t) p = true.
Proof.
  unfold GoStr.HasPrefix. revert s.
  induction p as [|a p IH]; intros s; [by destruct s, t|].
  destruct s as [|b s]; [done|]. rewrite append_cons.
  cbn [String.prefix]. destruct (ascii_dec a b); [apply IH|done].
Qed.

Lemma HasPrefix_app_ReplaceAll s :
  GoStr.HasPrefix s "app/" = true ->
  GoStr.HasPrefix (GoStr.ReplaceAll s "\"%char "/"%char) "app/" = true.
Proof.
  unfold GoStr.HasPrefix.
  destruct s as [|a s]; [done|]. cbn [String.prefix].
  destruct (ascii_dec "a" a) as [<-|]; [|done].
  destruct s as [|b s]; [done|]. cbn [String.prefix].
  destruct (ascii_dec "p" b) as [<-|]; [|done].
  destruct s as [|c s]; [done|]. cbn [String.prefix].
  destruct (ascii_dec "p" c) as [<-|]; [|done].
  destruct s as [|d s]; [done|]. cbn [String.prefix].
  destruct (ascii_dec "/" d) as [<-|]; [|done].
  intros _. by destruct s.
Qed.

Lemma HasPrefix_app_slash s : GoStr.HasPrefix ("app/" +:+ s) "app/" = true.
Proof. unfold GoStr.HasPrefix. cbn. by destruct s. Qed.

(** The tar path of a tracked file. *)
Lemma Join_app_tracked relPath :
  plain_path relPath = true ->
  GoStr.HasPrefix (Join ["app"; relPath]) "app/" = true.
Proof.
  intros Hr. rewrite Join_plain by done.
  destruct (split_on_cons Separator relPath) as (h & t & ->).
  apply (HasPrefix_app_slash (GoStr.Join (h :: t) "/")).
Qed.

(** The tar path of what the walk of the control directory visits. *)
Lemma Join_app_git rel :
  Forall (fun n => plain_path n = true) rel ->
  GoStr.HasPrefix
    (Join ["app/.git"; match rel with [] => "." | _ => GoStr.Join rel "/" end])
    "app/" = true.
Proof.
  intros Hall. destruct rel as [|n rest]; [vm_compute; reflexivity|].
  rewrite Join_plain; [|done|by apply plain_path_Join].
  destruct (split_on_cons Separator (GoStr.Join (n :: rest) "/"))
    as (h & t & ->).
  apply (HasPrefix_app_slash (".git/" +:+ GoStr.Join (h :: t) "/")).
Qed.

End FilepathFacts.
(* ===================================================================== *)
(** * Properties of the snapshot archive *)
(* ===================================================================== *)

Module ArchiveFacts.
Import Filepath FilepathFacts Git.

(** Induction on file trees, with the hypothesis for every child. *)
Lemma Entry_tree_ind (P : Entry -> Prop) :
  (forall err, P (Missing err)) ->
  (forall info err, P (Present info (Err err))) ->
  (forall info names,
      Forall (fun nc => P (snd nc)) names -> P (Present info (Ok names))) ->
  forall e, P e.
Proof.
  intros HM HE HO. fix IH 1. intros [err|info [names|err]].
  - apply HM.
  - apply HO. induction names as [|[name child] rest IHrest].
    + constructor.
    + constructor; [apply IH|apply IHrest].
  - apply HE.
Qed.

Section WalkInvariant.
Context {S : Type}.
Variable fn : string -> list string -> Visit -> S -> error * S.
Variable Inv : S -> Prop.
Variable ok : string -> bool.

Hypothesis fn_keeps :
  forall path rel v s,
    Forall (fun n => ok n = true) rel -> Inv s -> Inv (snd (fn path rel v s)).

(** A walk function that keeps an invariant at every visit keeps it over
    the whole walk. *)
Lemma walk_keeps e :
  forall path rel s,
    names_all ok e = true ->
    Forall (fun n => ok n = true) rel -> Inv s ->
    Inv (snd (walk fn path rel e s)).
Proof.
  induction e as [err|info err|info names IH] using Entry_tree_ind;
    intros path rel s Hnames Hrel Hs; cbn [walk].
  - by apply fn_keeps.
  - destruct (negb (IsDir info)); by apply fn_keeps.
  - destruct (negb (IsDir info)); [by apply fn_keeps|].
    pose proof (fn_keeps path rel (Visited info) s Hrel Hs) as Hs1.
    destruct (fn path rel (Visited info) s) as [err1 s1].
    cbn [snd] in Hs1. destruct err1 as [e1|]; [done|].
    cbn [names_all] in Hnames.
    revert s1 Hs1. induction IH as [|[name child] rest Hchild _ IHrest];
      intros s1 Hs1; [done|].
    apply andb_prop in Hnames as [Hnames Hrest].
    apply andb_prop in Hnames as [Hname Hsub].
    cbn [snd] in Hchild.
    assert (Forall (fun n => ok n = true) (rel ++ [name])) as Hrel'.
    { apply Forall_app. split; [done|]. by constructor. }
    pose proof (Hchild (Join [path; name]) (rel ++ [name]) s1 Hsub Hrel' Hs1)
      as Hs'.
    destruct (walk fn (Join [path; name]) (rel ++ [name]) child s1)
      as [err s'].
    cbn [snd] in Hs'. destruct err as [e'|]; [done|].
    by apply IHrest.
Qed.

End WalkInvariant.

Lemma names_all_true e : names_all (fun _ => true) e = true.
Proof.
  induction e as [err|info err|info names IH] using Entry_tree_ind;
    [done..|].
  cbn [names_all]. induction IH as [|[name child] rest Hchild _ IHrest];
    [done|].
  cbn [snd] in Hchild. by rewrite Hchild, IHrest.
Qed.

Section WithFmt.
Variable Quote : string -> string.

Lemma HasPrefix_app_not_absolute s :
  GoStr.HasPrefix s "app/" = true -> GoStr.byte_is s 0 "/" = false.
Proof.
  unfold GoStr.HasPrefix, GoStr.byte_is.
  destruct s as [|a s]; [done|]. cbn [String.prefix String.get].
  destruct (ascii_dec "a" a) as [<-|]; done.
Qed.

Lemma not_symlink_land info :
  is_symlink info = false -> Z.land (Mode info) ModeSymlink = 0%Z.
Proof.
  unfold is_symlink. intros H. apply negb_false_iff in H.
  by apply Z.eqb_eq.
Qed.

(** A header under [app/] whose type flag is the directory flag or the
    zero value, with a mode without the link bit, is written as a good
    entry or not at all. *)
Lemma WriteHeader_keeps hdr tw :
  GoStr.HasPrefix (Name hdr) "app/" = true ->
  Typeflag hdr = TypeDir \/ Typeflag hdr = TypeRegA ->
  Z.land (HMode hdr) ModeSymlink = 0%Z ->
  all_under_app tw -> all_under_app (snd (WriteHeader hdr tw)).
Proof.
  intros Hname Hflag Hmode Htw. unfold WriteHeader.
  destruct (header_err tw (length (entries tw))); [done|].
  cbn [snd]. unfold all_under_app. cbn [entries].
  apply Forall_app. split; [done|]. constructor; [|constructor].
  unfold under_app_no_symlink. cbn [Name Typeflag HMode].
  split; [done|]. split; [by apply HasPrefix_app_not_absolute|].
  assert ((if (Typeflag hdr =? TypeRegA)%Z
           then if has_suffix_slash (Name hdr) then TypeDir else TypeReg
           else Typeflag hdr) = TypeDir \/
          (if (Typeflag hdr =? TypeRegA)%Z
           then if has_suffix_slash (Name hdr) then TypeDir else TypeReg
           else Typeflag hdr) = TypeReg) as Hnorm.
  { destruct Hflag as [-> | ->]; cbn; [by left|].
    destruct (has_suffix_slash (Name hdr)); [by left|by right]. }
  split; [done|]. split; [|done].
  by destruct Hnorm as [-> | ->].
Qed.

(** A header is about to be written: show that the writer stays good,
    then look at the two outcomes of the write. *)
Ltac header_side_conditions :=
  apply WriteHeader_keeps; cbn [Name Typeflag HMode];
  [ first [done | by apply HasPrefix_app | vm_compute; reflexivity]
  | first [by left | by right]
  | first [done | vm_compute; reflexivity]
  | done ].

Ltac write_header :=
  match goal with
  | |- context [WriteHeader ?h ?tw] =>
      let Hw := fresh "Hw" in
      assert (all_under_app (snd (WriteHeader h tw))) as Hw
        by header_side_conditions;
      destruct (WriteHeader h tw) as [[?|] ?]; cbn [snd] in *; [done|]
  end.

(** The callback of addDirectoryToArchive, for the tar path [app/.git]. *)
Lemma add_to_archive_keeps open_err path rel v tw :
  Forall (fun n => plain_path n = true) rel ->
  all_under_app tw ->
  all_under_app (snd (add_to_archive open_err "app/.git" path rel v tw)).
Proof.
  intros Hrel Htw. unfold add_to_archive.
  destruct v as [info|err|info err]; [|done..].
  destruct (is_symlink info) eqn:Hlink; [done|].
  apply not_symlink_land in Hlink.
  pose proof (HasPrefix_app_ReplaceAll _ (Join_app_git rel Hrel)) as Hpre.
  unfold rel_path.
  destruct (IsDir info).
  - header_side_conditions.
  - destruct (open_err path); [done|]. write_header.
    by destruct (CopyContent _).
Qed.

(** The loop over the tracked files. *)
Lemma add_tracked_keeps env tempRoot lines tw :
  Forall (fun l => l = "" \/ plain_path l = true) lines ->
  all_under_app tw ->
  all_under_app (snd (add_tracked Quote env tempRoot lines tw)).
Proof.
  intros Hlines. revert tw.
  induction Hlines as [|relPath rest Hline _ IH]; intros tw Htw; [done|].
  cbn [add_tracked].
  destruct (String.eqb_spec relPath "") as [_|Hne]; [by apply IH|].
  destruct Hline as [?|Hplain]; [done|].
  destruct (lstat env (Join [tempRoot; relPath])) as [info|]; [|by apply IH].
  destruct (is_symlink info) eqn:Hlink; [by apply IH|].
  apply not_symlink_land in Hlink.
  pose proof (Join_app_tracked relPath Hplain) as Hpre.
  destruct (IsDir info).
  - write_header. by apply IH.
  - destruct (open_file env (Join [tempRoot; relPath])); [done|].
    write_header. destruct (CopyContent _); [done|]. by apply IH.
Qed.

(** The callback of copyDirectory never acts on a symbolic link. *)
Lemma copy_entry_keeps dst path rel v s :
  no_link_ops s -> no_link_ops (snd (copy_entry dst path rel v s)).
Proof.
  intros Hs. unfold copy_entry.
  destruct v as [info|err|info err]; [|done..].
  destruct (is_symlink info) eqn:Hlink; [done|].
  apply not_symlink_land in Hlink.
  destruct (IsDir info).
  - cbn [snd]. unfold no_link_ops, record_op. cbn [ops].
    apply Forall_app. split; [done|]. by constructor.
  - unfold copyFile.
    assert (no_link_ops (record_op
              (CopyFile path (Join [dst; rel_path rel]) (Mode info)) s)).
    { unfold no_link_ops, record_op. cbn [ops].
      apply Forall_app. split; [done|]. by constructor. }
    by destruct (copy_outcome s (length (ops s))).
Qed.

Lemma run_or_keeps r wrap tw k :
  all_under_app tw -> all_under_app (snd k) ->
  all_under_app (snd (run_or r wrap tw k)).
Proof. intros Htw Hk. by destruct r. Qed.

Lemma archive_keeps env remote branch name email gitRoot tempRoot tw :
  names_all plain_path (scratch_git env) = true ->
  (forall lines scan_err,
      ls_files env = Ok (lines, scan_err) ->
      Forall (fun l => l = "" \/ plain_path l = true) lines) ->
  all_under_app tw ->
  let r := archive Quote env remote branch name email gitRoot tempRoot tw in
  all_under_app (snd (fst r)) /\
  Forall (fun op => Z.land (op_mode op) ModeSymlink = 0%Z) (snd r).
Proof.
  intros Hnames Hlines Htw. unfold archive.
  match goal with
  | |- context [copyDirectory ?src ?dst ?tree ?s0] =>
      assert (no_link_ops (snd (copyDirectory src dst tree s0))) as Hcopy
        by (apply (walk_keeps _ no_link_ops (fun _ => true));
            [intros; by apply copy_entry_keeps|apply names_all_true
            |done|by constructor]);
      destruct (copyDirectory src dst tree s0) as [copy_err copied]
  end.
  cbn [fst snd] in *. split; [|done].
  destruct copy_err as [e|]; [done|].
  apply run_or_keeps; [done|].
  destruct (remove_origin_error (remote_remove env)); [done|].
  do 4 (apply run_or_keeps; [done|]).
  write_header.
  match goal with
  | |- context [addDirectoryToArchive ?o ?d ?p ?t ?tw1] =>
      assert (all_under_app (snd (addDirectoryToArchive o d p t tw1))) as Hg
        by (apply (walk_keeps _ all_under_app plain_path);
            [intros; by apply add_to_archive_keeps|done|by constructor
            |done]);
      destruct (addDirectoryToArchive o d p t tw1) as [[e|] tw2]
  end; cbn [snd] in *; [done|].
  destruct (ls_files env) as [[lines scan_err]|e] eqn:Els; [|done].
  pose proof (add_tracked_keeps env tempRoot lines tw2
                (Hlines _ _ eq_refl) Hg) as Ht.
  destruct (add_tracked Quote env tempRoot lines tw2) as [[e|] tw3];
    cbn [snd] in *; [done|].
  by destruct scan_err.
Qed.

(** C3. In every archive that CreateArchive produces, given that the
    names in the scratch control directory and the paths listed by
    [git ls-files] are plain relative paths (no empty, [.] or [..]
    component), every tar entry has a path that starts with [app/] and
    so does not begin with [/], is a directory or a regular file and
    never a symbolic link, and comes from a file whose mode does not
    carry the symbolic-link bit; nor does the copy of the control
    directory act on a symbolic link. *)
Theorem C3_archive_entries_under_app_no_symlinks
    (env : ArchiveEnv) (path remote branch gitUserName gitUserEmail : string)
    (stream : ArchiveStream) :
  names_all plain_path (scratch_git env) = true ->
  (forall lines scan_err,
      ls_files env = Ok (lines, scan_err) ->
      Forall (fun l => l = "" \/ plain_path l = true) lines) ->
  CreateArchive Quote env path remote branch gitUserName gitUserEmail
    = Ok stream ->
  Forall under_app_no_symlink (stream_entries stream) /\
  Forall (fun op => Z.land (op_mode op) ModeSymlink = 0%Z)
         (scratch_ops stream).
Proof.
  intros Hnames Hlines. unfold CreateArchive.
  destruct (rev_parse env) as [root|]; [|done].
  destruct (mkdir_temp env) as [tempDir|]; [|done].
  match goal with
  | |- context [archive Quote env ?r ?b ?n ?e ?g ?t ?tw] =>
      pose proof (archive_keeps env r b n e g t tw Hnames Hlines) as Ha;
      destruct (archive Quote env r b n e g t tw) as [[err tw'] fsops]
  end.
  intros [= <-]. cbn [stream_entries scratch_ops fst snd] in *.
  apply Ha. by constructor.
Qed.

End WithFmt.

End ArchiveFacts.
(* ===================================================================== *)
(** * Properties of NewServer *)
(* ===================================================================== *)

Module ServerFacts.
Import GitServer Scenarios.

Section WithFmt.
Variable Quote : string -> string.

(** C5 (amended). NewServer returns an error exactly when the path cannot
    be made absolute, [path/.git] does not exist, the loopback listener
    cannot be bound, git is not found in PATH, or the address of the
    listener cannot be split or its port parsed.  When it fails on one of
    the first three, the call has opened no listener.  When it succeeds,
    the listener it opened is open and served, and Port is the parsed
    port. *)
Theorem C5_NewServer_failure_causes (env : ServerEnv) (path : string)
    (net : Net) :
  let r := NewServer Quote env path net in
  (is_err (fst r) = true <->
     is_err (abs env) = true \/ stat_not_exist env = true \/
     is_err (listen env) = true \/ is_err (look_path env) = true \/
     is_err (split_host_port env) = true \/ is_err (parse_int env) = true)
  /\
  (is_err (abs env) = true \/ stat_not_exist env = true \/
   is_err (listen env) = true -> snd r = net)
  /\
  (forall s, fst r = Ok s ->
     listen env = Ok (listener s) /\
     parse_int env = Ok (Port s) /\
     open_listeners (snd r) = lid (listener s) :: open_listeners net /\
     serving (snd r) = lid (listener s) :: serving net).
Proof.
  unfold NewServer, stat_not_exist.
  destruct (abs env) as [p|e0]; cbn [is_err fst snd];
    [|split; [split; [tauto|done]|split; [done|done]]].
  destruct (stat_git env) as [|e1|e1]; cbn [is_err fst snd];
    try (split; [split; [tauto|done]|split; [done|done]]).
  all: destruct (listen env) as [l|e2]; cbn [is_err fst snd];
    try (split; [split; [tauto|done]|split; [done|done]]).
  all: destruct (look_path env) as [g|e3]; cbn [is_err fst snd];
    try (split; [split; [tauto|done]|split; [|done]];
         intros [?|[?|?]]; done).
  all: destruct (split_host_port env) as [ps|e4]; cbn [is_err fst snd];
    try (split; [split; [tauto|done]|split; [|done]];
         intros [?|[?|?]]; done).
  all: destruct (parse_int env) as [n|e5]; cbn [is_err fst snd];
    try (split; [split; [tauto|done]|split; [|done]];
         intros [?|[?|?]]; done).
  all: split; [split; [done|]|split].
  all: try (intros [?|[?|[?|[?|[?|?]]]]]; done).
  all: try (intros [?|[?|?]]; done).
  all: intros s [= <-]; done.
Qed.

End WithFmt.

(** C5 (as stated) fails.  Without git in PATH, NewServer returns an
    error and the listener it has bound stays open.  And NewServer also
    fails although [.git] is there, the listener can be bound and git is
    in PATH, when the path cannot be made absolute. *)
Lemma C5_failed_start_leaves_listener_open :
  (let r := NewServer (fun s => s) env_without_git "." no_sockets in
   is_err (fst r) = true /\
   open_listeners no_sockets = [] /\
   open_listeners (snd r) = [7]) /\
  (let r := NewServer (fun s => s) env_without_cwd "." no_sockets in
   is_err (fst r) = true /\
   stat_not_exist env_without_cwd = false /\
   is_err (listen env_without_cwd) = false /\
   is_err (look_path env_without_cwd) = false).
Proof. vm_compute. done. Qed.

End ServerFacts.

(* ===================================================================== *)
(** * The network name and the create-container call of run *)
(* ===================================================================== *)

Module MainFacts.
Import Types Config Docker Main.

(** CreateContainer hands the network name it is given to the engine. *)
Lemma CreateContainer_requests_network Quote create sessionID image args env
    volumes workingDir network stopTimeout ttyRetries retryDelay :
  requested_networks
    (snd (CreateContainer Quote create sessionID image args env volumes
            workingDir network stopTimeout ttyRetries retryDelay))
  = [network].
Proof. unfold CreateContainer. by destruct create. Qed.

(** C6 (defect). The argument list that run writes for CreateContainer
    holds nine values and no network name: it is the same for every
    network that ParseConfig may have stored, and it does not fit the
    signature of CreateContainer, which expects the network name after
    the working directory.  For the arguments
    [--network some-network cmd] the configuration holds
    [some-network], and this value is not among the arguments of the
    call. *)
Theorem C6_run_does_not_pass_network :
  (forall Quote create sessionID image config,
     call_CreateContainer Quote create
       (create_container_arguments sessionID image config) = None) /\
  (forall sessionID image c1 c2,
     Args c1 = Args c2 -> Env c1 = Env c2 -> Volumes c1 = Volumes c2 ->
     WorkingDir c1 = WorkingDir c2 -> StopTimeout c1 = StopTimeout c2 ->
     TTYRetries c1 = TTYRetries c2 -> RetryDelay c1 = RetryDelay c2 ->
     create_container_arguments sessionID image c1
     = create_container_arguments sessionID image c2) /\
  (let config := ParseConfig ["--network"; "some-network"; "cmd"] [] in
   Network config = "some-network" /\
   VString "some-network"
     ∉ create_container_arguments "contagent-42" {| Name := "contagent:latest" |}
         config).
Proof.
  split; [done|]. split.
  - intros sessionID image c1 c2 H1 H2 H3 H4 H5 H6 H7.
    unfold create_container_arguments. congruence.
  - split; [vm_compute; reflexivity|].
    vm_compute. intros H.
    repeat (apply elem_of_cons in H as [H|H]; [discriminate H|]).
    by apply elem_of_nil in H.
Qed.

End MainFacts.
(* ===================================================================== *)
(** * The theorems with hypotheses, at concrete inputs *)
(* ===================================================================== *)

Module Instances.
Import Config Docker Git Scenarios.

(** C7 for a build whose second record carries error code 1: the first
    fragment is printed, the third is not, and the error holds the
    message of the second. *)
Lemma C7_BuildImage_witness :
  let '(result, actions) :=
    BuildImage (fun s => s) demo_build_env "Dockerfile" "contagent:latest" in
  printed actions = map Stream (ok_prefix demo_outputs) /\
  Forall (fun o => ErrorDetail_Code o = 0%Z) (ok_prefix demo_outputs) /\
  match first_error demo_outputs with
  | Some bad =>
      ErrorDetail_Code bad <> 0%Z /\
      (exists later, demo_outputs = ok_prefix demo_outputs ++ bad :: later) /\
      exists msg, result = Err msg /\
                  GoStr.Contains msg (ErrorDetail_Message bad)
  | None =>
      demo_outputs = ok_prefix demo_outputs /\
      result = Ok {| Docker.Name := "contagent:latest" |}
  end.
Proof.
  apply (DockerFacts.C7_BuildImage_stream_and_first_error (fun s => s)
           demo_build_env "Dockerfile" "contagent:latest"
           "FROM alpine:latest" demo_outputs).
  - reflexivity.
  - reflexivity.
  - right. reflexivity.
  - intros k. reflexivity.
Defined.


Example demo_stream_names :
  map Name (stream_entries demo_stream)
  = ["app/"; "app/.git/"; "app/.git/HEAD"; "app/.git/hooks/";
     "app/.git/config"; "app/regular.txt"].
Proof. reflexivity. Qed.

(** C3 for a repository that tracks a regular file and a symbolic link
    and whose control directory holds a linked hook. *)
Lemma C3_archive_witness :
  Forall under_app_no_symlink (stream_entries demo_stream) /\
  Forall (fun op => Z.land (op_mode op) ModeSymlink = 0%Z)
         (scratch_ops demo_stream).
Proof.
  apply (ArchiveFacts.C3_archive_entries_under_app_no_symlinks (fun s => s)
           demo_archive_env "/home/dev/project"
           "http://host.docker.internal:40123" "contagent/42"
           "Contagent" "contagent@example.com" demo_stream).
  - vm_compute. reflexivity.
  - intros lines scan_err [= <- <-].
    repeat constructor; right; vm_compute; reflexivity.
  - vm_compute. reflexivity.
Defined.

End Instances.

(* ===================================================================== *)
(** * Strings: append, length and slices *)
(* ===================================================================== *)

Module StringFacts.

Lemma string_app_assoc (a b c : string) : (a +:+ b) +:+ c = a +:+ b +:+ c.
Proof.
  induction a as [|x a IH]; [done|].
  rewrite !FilepathFacts.append_cons. by rewrite IH.
Qed.

Lemma string_app_nil_r (a : string) : a +:+ "" = a.
Proof.
  induction a as [|x a IH]; [done|].
  rewrite FilepathFacts.append_cons. by rewrite IH.
Qed.

Lemma string_length_app (a b : string) :
  String.length (a +:+ b) = (String.length a + String.length b)%nat.
Proof.
  induction a as [|x a IH]; [done|].
  rewrite FilepathFacts.append_cons. cbn [String.length]. by rewrite IH.
Qed.

Lemma substring_skip (a b : string) (m : nat) :
  String.substring (String.length a) m (a +:+ b) = String.substring 0 m b.
Proof.
  induction a as [|x a IH]; [done|].
  rewrite FilepathFacts.append_cons. cbn [String.length String.substring].
  exact IH.
Qed.

Lemma substring_take (a b : string) :
  String.substring 0 (String.length a) (a +:+ b) = a.
Proof.
  induction a as [|x a IH]; [by destruct b|].
  rewrite FilepathFacts.append_cons. cbn [String.length String.substring].
  by rewrite IH.
Qed.

Lemma substring_length_le (i m : nat) (s : string) :
  (String.length (String.substring i m s) <= String.length s - i)%nat.
Proof.
  revert i m. induction s as [|x s IH]; intros i m.
  - destruct i, m; cbn; lia.
  - destruct i as [|i].
    + destruct m as [|m]; cbn [String.substring String.length]; [lia|].
      specialize (IH 0%nat m). lia.
    + cbn [String.substring String.length]. specialize (IH i m). lia.
Qed.

Lemma slice_from_skip (a b : string) (n : nat) :
  GoStr.slice_from (String.length a + n) (a +:+ b) = GoStr.slice_from n b.
Proof.
  induction a as [|x a IH]; [done|].
  rewrite FilepathFacts.append_cons. cbn [String.length Nat.add].
  cbn [GoStr.slice_from]. exact IH.
Qed.

Lemma slice_from_length (a b : string) :
  GoStr.slice_from (String.length a) (a +:+ b) = b.
Proof.
  rewrite <- (Nat.add_0_r (String.length a)). rewrite slice_from_skip.
  by destruct b.
Qed.

End StringFacts.
(* ===================================================================== *)
(** * More properties of ParseConfig *)
(* ===================================================================== *)

Module CliFacts.
Import Config Cli.

Lemma Parse_unfold args :
  Flag.Parse flagset initial_vars args
  = Flag.Parse_loop (S (length args)) (parsing args) initial_vars.
Proof. done. Qed.

(** Recognised flags at the front are consumed one per turn. *)
Lemma Parse_loop_flags fls tail fuel v :
  Flag.Parse_loop (length fls + fuel)
    (parsing (concat (map render fls) ++ tail)) v
  = Flag.Parse_loop fuel (parsing tail) (foldl store v fls).
Proof.
  revert v. induction fls as [|fl fls IH]; intros v; [done|].
  cbn [length Nat.add map concat Flag.Parse_loop foldl].
  rewrite <- app_assoc.
  rewrite (ConfigFacts.parseOne_render "contagent" true fl). apply IH.
Qed.

Lemma length_flags_tail fls (tail : list string) :
  S (length (concat (map render fls) ++ tail))
  = (length fls + S (length fls + length tail))%nat.
Proof. rewrite length_app, ConfigFacts.length_concat_render. lia. Qed.

Lemma network_foldl_store fls v :
  network (foldl store v fls) = default (network v) (last_network fls).
Proof.
  revert v. induction fls as [|fl fls IH]; intros v; [done|].
  cbn [foldl]. rewrite IH. unfold last_network.
  destruct fl; cbn; try done.
  rewrite last_cons. by destruct (last _).
Qed.

Lemma dockerfilePath_foldl_store fls v :
  dockerfilePath (foldl store v fls)
  = default (dockerfilePath v) (last_dockerfile fls).
Proof.
  revert v. induction fls as [|fl fls IH]; intros v; [done|].
  cbn [foldl]. rewrite IH. unfold last_dockerfile.
  destruct fl; cbn; try done.
  rewrite last_cons. by destruct (last _).
Qed.

(** What ParseConfig returns when, after a run of recognised flags, the
    parser stops without touching the variables. *)
Lemma ParseConfig_stops fls tail environment e f' :
  Flag.parseOne (parsing tail) (foldl store initial_vars fls)
  = (false, e, f', foldl store initial_vars fls) ->
  let c := ParseConfig (concat (map render fls) ++ tail) environment in
  Args c = Flag.args f' /\
  drop 4 (Env c) = env_values fls /\
  Volumes c = defaultVolumes ++ volume_values fls /\
  DockerfilePath c = default "" (last_dockerfile fls) /\
  Network c = default "default" (last_network fls).
Proof.
  intros Hstop. unfold ParseConfig.
  rewrite Parse_unfold, length_flags_tail, Parse_loop_flags.
  cbn [Flag.Parse_loop]. rewrite Hstop.
  cbn [Args Env Volumes DockerfilePath Network Flag.Args].
  rewrite ConfigFacts.additionalEnv_foldl_store,
    ConfigFacts.volumes_foldl_store,
    dockerfilePath_foldl_store, network_foldl_store.
  done.
Qed.

(** The registered names are the only keys of the flag set. *)
Lemma formal_lookup_unknown name :
  unknown_name name = true -> Flag.formal flagset !! name = None.
Proof.
  intros H.
  assert (name <> "env") by (intros ->; by vm_compute in H).
  assert (name <> "volume") by (intros ->; by vm_compute in H).
  assert (name <> "dockerfile") by (intros ->; by vm_compute in H).
  assert (name <> "network") by (intros ->; by vm_compute in H).
  unfold flagset, Flag.Var, Flag.NewFlagSet. cbn [Flag.formal].
  rewrite !lookup_insert_ne by done.
  apply lookup_empty.
Qed.

Lemma parseOne_unknown dashes name rest v :
  dashes = "-" \/ dashes = "--" ->
  unknown_name name = true ->
  exists e, Flag.parseOne (parsing ((dashes +:+ name) :: rest)) v
            = (false, Some e, parsing rest, v).
Proof.
  intros Hd Hname. pose proof (formal_lookup_unknown name Hname) as Hlook.
  unfold unknown_name in Hname. destruct name as [|c r]; [done|].
  do 4 (apply andb_prop in Hname as [Hname _]).
  apply andb_prop in Hname as [Hname Hnocut].
  apply andb_prop in Hname as [Hdash Heq].
  apply negb_true_iff in Hdash, Heq.
  destruct (GoStr.cut_at "=" r) as [?|] eqn:Hcut; [done|].
  unfold Flag.parseOne. cbn [Flag.args parsing].
  destruct Hd as [-> | ->].
  - change ("-" +:+ String c r) with (String "-" (String c r)).
    cbn [String.length Nat.ltb Nat.leb orb negb GoStr.byte_is String.get
         Ascii.eqb Bool.eqb andb GoStr.slice_from Nat.eqb].
    rewrite Hdash.
    cbn [String.length Nat.ltb Nat.leb orb negb GoStr.byte_is String.get
         andb GoStr.slice_from Nat.eqb].
    rewrite Hdash, Heq. cbn [orb].
    unfold Flag.split_value. rewrite Hcut.
    unfold Flag.with_args, parsing. cbn [Flag.formal]. rewrite Hlook.
    destruct (_ || _); by eexists.
  - change ("--" +:+ String c r) with (String "-" (String "-" (String c r))).
    cbn [String.length Nat.ltb Nat.leb orb negb GoStr.byte_is String.get
         Ascii.eqb Bool.eqb andb GoStr.slice_from Nat.eqb].
    rewrite Hdash, Heq. cbn [orb].
    unfold Flag.split_value. rewrite Hcut.
    unfold Flag.with_args, parsing. cbn [Flag.formal]. rewrite Hlook.
    destruct (_ || _); by eexists.
Qed.

Lemma parseOne_spelling fl alt more v :
  alt ∈ spellings fl ->
  Flag.parseOne (parsing (alt ++ more)) v
  = (true, None, parsing more, store v fl).
Proof.
  unfold spellings. intros Hin.
  repeat (apply elem_of_cons in Hin as [->|Hin];
          [destruct fl; vm_compute; reflexivity|]).
  by apply elem_of_nil in Hin.
Qed.

(** X1. Everything after a [--] argument is the command, also when it looks
    like a flag: after any run of recognised flags, [--] ends flag
    parsing, is itself dropped, and the arguments behind it become the
    command vector unchanged. *)
Theorem ParseConfig_double_dash_ends_flags fls rest environment :
  let c := ParseConfig (concat (map render fls) ++ "--" :: rest)
             environment in
  Args c = rest /\
  drop 4 (Env c) = env_values fls /\
  Volumes c = defaultVolumes ++ volume_values fls /\
  DockerfilePath c = default "" (last_dockerfile fls) /\
  Network c = default "default" (last_network fls).
Proof.
  apply (ParseConfig_stops fls ("--" :: rest) environment None
           (parsing rest)).
  reflexivity.
Qed.

(** X2. An undefined flag is not an error for ParseConfig: flag parsing
    stops there, the flag itself is dropped, and what follows it is the
    command vector; the flags before it have taken effect. *)
Theorem ParseConfig_unknown_flag_dropped
    fls dashes name rest environment :
  dashes = "-" \/ dashes = "--" ->
  unknown_name name = true ->
  let c := ParseConfig
             (concat (map render fls) ++ (dashes +:+ name) :: rest)
             environment in
  Args c = rest /\
  drop 4 (Env c) = env_values fls /\
  Volumes c = defaultVolumes ++ volume_values fls /\
  DockerfilePath c = default "" (last_dockerfile fls) /\
  Network c = default "default" (last_network fls).
Proof.
  intros Hd Hname.
  destruct (parseOne_unknown dashes name rest
              (foldl store initial_vars fls) Hd Hname) as [e He].
  apply (ParseConfig_stops fls ((dashes +:+ name) :: rest) environment
           (Some e) (parsing rest) He).
Qed.

(** X3. A recognised flag written as the last argument, without a value,
    stores nothing: the configuration is the one of the flags before it,
    with an empty command vector. *)
Theorem ParseConfig_flag_without_value fls fl environment :
  let c := ParseConfig
             (concat (map render fls) ++ ["--" +:+ flag_name fl])
             environment in
  Args c = [] /\
  drop 4 (Env c) = env_values fls /\
  Volumes c = defaultVolumes ++ volume_values fls /\
  DockerfilePath c = default "" (last_dockerfile fls) /\
  Network c = default "default" (last_network fls).
Proof.
  apply (ParseConfig_stops fls ["--" +:+ flag_name fl] environment
           (Some (Flag.NeedsArgument (flag_name fl))) (parsing [])).
  destruct fl; reflexivity.
Qed.

(** X4. The four spellings of a flag (one or two dashes, value as the next
    argument or attached with [=]) give the same configuration, wherever
    the flag stands among recognised flags; an attached value is taken
    from the first [=] on, so it may itself hold [=]. *)
Theorem ParseConfig_spellings_agree fls fl rest environment :
  Forall (fun alt =>
            ParseConfig (concat (map render fls) ++ alt ++ rest) environment
            = ParseConfig (concat (map render fls) ++ render fl ++ rest)
                environment)
         (spellings fl).
Proof.
  apply Forall_forall. intros alt Hin.
  assert (render fl ∈ spellings fl) as Hcanon.
  { unfold spellings. destruct fl; apply elem_of_cons; by left. }
  assert (forall alt', alt' ∈ spellings fl ->
            Flag.Parse flagset initial_vars
              (concat (map render fls) ++ alt' ++ rest)
            = Flag.Parse_loop (S (length rest)) (parsing rest)
                (store (foldl store initial_vars fls) fl)) as Hparse.
  { intros alt' Hin'. rewrite Parse_unfold, length_flags_tail.
    rewrite Parse_loop_flags.
    transitivity (Flag.Parse_loop (length fls + length (alt' ++ rest))
                    (parsing rest) (store (foldl store initial_vars fls) fl)).
    { cbn [Flag.Parse_loop].
      by rewrite (parseOne_spelling fl alt' rest _ Hin'). }
    apply FlagFacts.Parse_loop_fuel_ge; cbn [Flag.args parsing].
    - lia.
    - rewrite length_app.
      assert (1 <= length alt')%nat; [|lia].
      unfold spellings in Hin'.
      repeat (apply elem_of_cons in Hin' as [->|Hin']; [cbn; lia|]).
      by apply elem_of_nil in Hin'. }
  unfold ParseConfig. by rewrite (Hparse alt Hin), (Hparse _ Hcanon).
Qed.

(** X5. With several [--network] or [--dockerfile] flags the last one
    counts; without any, the network is [default] and the Dockerfile
    path is empty. *)
Theorem ParseConfig_last_network_and_dockerfile fls rest environment :
  starts_command rest = true ->
  let c := ParseConfig (concat (map render fls) ++ rest) environment in
  Network c = default "default" (last_network fls) /\
  DockerfilePath c = default "" (last_dockerfile fls).
Proof.
  intros Hrest.
  destruct (ParseConfig_stops fls rest environment None (parsing rest))
    as (_ & _ & _ & Hd & Hn); [|done].
  by apply (ConfigFacts.parseOne_starts_command "contagent" true).
Qed.

End CliFacts.
(* ===================================================================== *)
(** * More properties of the cleanup ledger *)
(* ===================================================================== *)

Module CleanupLaws.
Import Cleanup.
Section WithWorld.
Context {World : Type}.
Implicit Types (m : CleanupManager World) (c : cleanupFunc World)
               (w : World).

(** The loop started from any outcome does what it does from the empty
    one, after what that outcome already holds. *)
Lemma foldl_execute_step_from cs (o : Outcome World) :
  let o1 := foldl execute_step o cs in
  let o2 := foldl execute_step
              {| world := world o; invoked := []; logged := [] |} cs in
  world o1 = world o2 /\
  invoked o1 = invoked o ++ invoked o2 /\
  logged o1 = logged o ++ logged o2.
Proof.
  revert o. induction cs as [|c cs IH]; intros o; cbn [foldl].
  - cbn. by rewrite !app_nil_r.
  - destruct (IH (execute_step o c)) as (Hw & Hi & Hl).
    destruct (IH (execute_step
                    {| world := world o; invoked := []; logged := [] |} c))
      as (Hw' & Hi' & Hl').
    cbn zeta in *. rewrite Hw, Hi, Hl, Hw', Hi', Hl'.
    unfold execute_step. cbn [world].
    destruct (fn c (world o)) as [[e|] w']; cbn [world invoked logged];
      by rewrite ?app_nil_l, <- ?app_assoc.
Qed.

(** X7. Execute after Add: the entry added last is called first, on the state
    Execute starts from; a line is logged if it fails; then everything
    goes on as Execute on the ledger before the Add would, from the state
    that entry leaves. *)
Theorem Execute_after_Add nm (f : World -> error * World) m w :
  let c := {| name := nm; fn := f |} in
  let o := snd (Execute (Add nm f m) w) in
  let o' := snd (Execute m (snd (f w))) in
  invoked o = c :: invoked o' /\
  world o = world o' /\
  logged o = match fst (f w) with
             | Some e => [log_line c e]
             | None => []
             end ++ logged o'.
Proof.
  cbn zeta. unfold Execute. cbn [snd Add funcs app foldl].
  match goal with
  | |- context [foldl execute_step (execute_step ?o0 ?c0) (funcs m)] =>
      destruct (foldl_execute_step_from (funcs m) (execute_step o0 c0))
        as (Hw & Hi & Hl)
  end.
  cbn zeta in *. rewrite Hw, Hi, Hl. unfold execute_step. cbn [world fn].
  destruct (f w) as [[e|] w']; cbn [world invoked logged fst snd]; done.
Qed.

End WithWorld.
End CleanupLaws.

(* ===================================================================== *)
(** * More properties of the engine driver and of the terminal bridge *)
(* ===================================================================== *)

Module DockerMore.
Import Types Config Docker DockerSpec.

Section WithFmt.
Variable Quote : string -> string.
Variable Itoa : Z -> string.

(** ** BuildImage *)

Lemma decode_loop_success ctx_err i body actions :
  decode_loop ctx_err i body = (None, actions) ->
  exists outputs,
    body = map Ok outputs /\
    Forall (fun o => ErrorDetail_Code o = 0%Z) outputs /\
    actions = map (fun o => Print (Stream o)) outputs /\
    forall k, (k < length outputs)%nat -> ctx_err (i + k)%nat = None.
Proof.
  revert i actions. induction body as [|decoded rest IH];
    intros i actions H; cbn [decode_loop] in H.
  - injection H as <-. exists []. repeat split; [constructor|].
    cbn. lia.
  - destruct (ctx_err i) eqn:Hctx; [done|].
    destruct decoded as [output|e]; [|done].
    destruct (Z.eqb_spec (ErrorDetail_Code output) 0) as [Hz|]; [|done].
    cbn [negb] in H.
    destruct (decode_loop ctx_err (S i) rest) as [err acts] eqn:E.
    injection H as -> <-.
    destruct (IH _ _ E) as (outputs & -> & Hall & -> & Hk).
    exists (output :: outputs). repeat split; [by constructor|].
    intros k Hlt. destruct k as [|k].
    + by rewrite Nat.add_0_r.
    + cbn in Hlt. replace (i + S k)%nat with (S i + k)%nat by lia.
      apply Hk. lia.
Qed.

(** X8. When BuildImage returns an image, the build was clean: the
    Dockerfile was read, the engine accepted the request, every record
    of the answer decoded and carried error code zero, the context was
    live at every turn, every fragment was printed in order, exactly one
    build request was made, and the image bears the requested name. *)
Theorem BuildImage_success_means_clean_build
    (env : BuildEnv) (dockerfilePath : string) (imageName : Types.ImageName)
    (image : Image) :
  fst (BuildImage Quote env dockerfilePath imageName) = Ok image ->
  let actions := snd (BuildImage Quote env dockerfilePath imageName) in
  Name image = imageName /\
  is_err (read_file env) = false /\
  exists outputs,
    image_build env = Ok (map Ok outputs) /\
    Forall (fun o => ErrorDetail_Code o = 0%Z) outputs /\
    (forall k, (k < length outputs)%nat -> ctx_err_at env k = None) /\
    printed actions = map Stream outputs /\
    actions = ImageBuild {| Dockerfile := "Dockerfile"; Tags := [imageName];
                            Remove := true |}
              :: map (fun o => Print (Stream o)) outputs.
Proof.
  unfold BuildImage.
  destruct (read_file env) as [dockerfile|]; [|done].
  destruct (image_build env) as [body|]; [|done].
  destruct (tar_select env) as [[e|]|e|]; cbn [fst snd]; try done.
  all: destruct (decode_loop (ctx_err_at env) 0 body) as [[e|] acts] eqn:E;
    cbn [fst snd]; [done|]; intros [= <-];
    destruct (decode_loop_success _ _ _ _ E)
      as (outputs & -> & Hall & -> & Hk);
    split; [done|]; split; [done|]; exists outputs;
    repeat split; try done;
    by apply DockerFacts.printed_request_prints.
Qed.

Lemma decode_loop_prints_prefix ctx_err i body :
  let actions := snd (decode_loop ctx_err i body) in
  printed actions `prefix_of` decoded_streams body /\
  build_requests actions = [].
Proof.
  revert i. induction body as [|decoded rest IH]; intros i;
    cbn [decode_loop].
  - done.
  - destruct (ctx_err i); [split; [apply prefix_nil|done]|].
    destruct decoded as [output|e]; [|done].
    destruct (negb _); [split; [apply prefix_nil|done]|].
    destruct (IH (S i)) as [Hp Hb].
    destruct (decode_loop ctx_err (S i) rest) as [err acts].
    cbn [snd decoded_streams] in *. split; [|done].
    by apply prefix_cons.
Qed.

(** X9. Whatever happens, BuildImage makes at most one build request (none
    if the Dockerfile cannot be read), always for the file name
    Dockerfile with the requested tag, and what it prints is a prefix of
    the fragments the engine sent: nothing is printed out of order,
    twice, or after the point where it stopped. *)
Theorem BuildImage_one_request_prefix_printed
    (env : BuildEnv) (dockerfilePath : string) (imageName : Types.ImageName) :
  let actions := snd (BuildImage Quote env dockerfilePath imageName) in
  build_requests actions
    = (if is_err (read_file env) then []
       else [{| Dockerfile := "Dockerfile"; Tags := [imageName];
                Remove := true |}]) /\
  match image_build env with
  | Ok body => printed actions `prefix_of` decoded_streams body
  | Err _ => printed actions = []
  end.
Proof.
  unfold BuildImage.
  destruct (read_file env) as [dockerfile|];
    [|destruct (image_build env); (split; [done|]);
      [apply prefix_nil|done]].
  destruct (image_build env) as [body|]; [|done].
  pose proof (decode_loop_prints_prefix (ctx_err_at env) 0 body) as [Hp Hb].
  destruct (tar_select env) as [[e|]|e|]; cbn [is_err snd];
    try (split; [done|apply prefix_nil]).
  all: destruct (decode_loop (ctx_err_at env) 0 body) as [[?|] acts];
    cbn [snd] in *;
    (split; [exact (f_equal (cons _) Hb)|exact Hp]).
Qed.

(** ** Wait *)

(** X10. Wait returns an error only when the engine reports one on the wait
    channel; a container that exits, with whatever status, is not an
    error: its status is printed.  A stop request is made in the signal
    case and in no other. *)
Theorem Wait_error_and_stop_policy (c : Container) (event : WaitEvent)
    (stop : error) :
  let '(err, actions) := Wait Quote Itoa c event stop in
  (is_Some err <-> exists e, event = WaitError (Some e)) /\
  (stop_requests actions <> [] <-> event = Signal) /\
  (forall statusCode, event = WaitResult statusCode ->
     err = None /\
     actions = [ContainerWait (ID c) WaitConditionNotRunning;
                Printf (String "010" "Container exited with status: " +:+
                        Itoa statusCode +:+ String "010" "")]).
Proof.
  destruct event as [[e|]|code|]; cbn.
  - split; [split; [by eexists|by eexists]|]. split; [done|done].
  - split; [split; [by intros []|by intros [? ?]]|]. split; [done|done].
  - split; [split; [by intros []|by intros [? ?]]|].
    split; [done|]. by intros ? [= <-].
  - split; [split; [by intros []|by intros [? ?]]|].
    split; [|done]. by destruct stop.
Qed.

(** ** TTY.Resize, TTY.Monitor *)

Lemma Resize_trace o t n :
  let actions := snd (Resize o t n) in
  delays actions = [] /\ fatal actions = false /\
  (length (resize_requests actions) <= 1)%nat.
Proof.
  unfold Resize. destruct (size_at o n) as [h w].
  destruct ((h =? 0)%Z && (w =? 0)%Z); cbn; repeat split; lia.
Qed.

Lemma resize_requests_app a b :
  resize_requests (a ++ b) = resize_requests a ++ resize_requests b.
Proof. unfold resize_requests. by rewrite omap_app. Qed.

(** The retry loop, from any turn on: it waits at most once per turn
    left and sends at most one request per wait; a cancelled turn ends
    it without a fatal message; and a fatal message means that every
    turn was taken uncancelled and every attempt failed. *)
Lemma retry_loop_bounds o t cancelled retry remaining err :
  let trace := retry_loop o t cancelled retry remaining err in
  (length (delays trace) <= remaining)%nat /\
  (length (resize_requests trace) <= length (delays trace))%nat /\
  (forall k, (k < remaining)%nat -> cancelled (retry + k)%nat = true ->
     (length (delays trace) <= k)%nat /\ fatal trace = false) /\
  (fatal trace = true ->
     length (delays trace) = remaining /\
     (remaining = 0%nat -> is_Some err) /\
     forall k, (k < remaining)%nat ->
       cancelled (retry + k)%nat = false /\
       is_Some (fst (Resize o t (S (retry + k))))).
Proof.
  revert retry err. induction remaining as [|n IH]; intros retry err;
    cbn zeta; cbn [retry_loop].
  - destruct err as [e|]; cbn.
    + repeat split; try lia; try done.
    + repeat split; try lia; done.
  - destruct (cancelled retry) eqn:Hc.
    { cbn. repeat split; try lia; try done. }
    pose proof (Resize_trace o t (S retry)) as (Hd & Hf & Hr).
    destruct (Resize o t (S retry)) as [[e|] acts] eqn:ER;
      cbn [fst snd] in *.
    + destruct (IH (S retry) (Some e)) as (B1 & B2 & B3 & B4).
      cbn zeta in *.
      rewrite DockerFacts.delays_After, DockerFacts.delays_app, Hd.
      rewrite DockerFacts.fatal_After, DockerFacts.fatal_app, Hf.
      cbn [app orb length].
      change (resize_requests (After ?d :: ?l)) with (resize_requests l).
      rewrite resize_requests_app, length_app.
      split; [lia|]. split; [lia|]. split.
      * intros k Hk Hck. destruct k as [|k].
        { rewrite Nat.add_0_r in Hck. congruence. }
        destruct (B3 k) as [B3a B3b]; [lia| |].
        { by replace (S retry + k)%nat with (retry + S k)%nat by lia. }
        split; [lia|done].
      * intros Hfatal. destruct (B4 Hfatal) as (C1 & C2 & C3).
        split; [lia|]. split; [done|].
        intros k Hk. destruct k as [|k].
        { rewrite Nat.add_0_r, ER. split; [done|by eexists]. }
        replace (retry + S k)%nat with (S retry + k)%nat by lia.
        apply C3. lia.
    + rewrite DockerFacts.delays_After, DockerFacts.fatal_After, Hd, Hf.
      change (resize_requests (After ?d :: ?l)) with (resize_requests l).
      cbn [length]. split; [lia|]. split; [lia|]. split; [|done].
      intros k Hk Hck. destruct k as [|k]; [|split; [lia|done]].
      rewrite Nat.add_0_r in Hck. congruence.
Qed.

(** X11. Monitor never fails and always starts the SIGWINCH listener.  It
    starts the retry task exactly when its first resize request is
    refused by the engine; with a terminal of size 0x0 it sends no
    request at all, so no retry is ever started, whatever the engine
    would answer. *)
Theorem Monitor_starts_retry_iff_request_refused
    (o : ResizeOracle) (t : TTY) (cancelled : nat -> bool) :
  let m := Monitor o t cancelled in
  monitor_result m = None /\
  sigwinch_task m = true /\
  (is_Some (retry_task m) <->
     size_at o 0 <> (0, 0)%Z /\ is_Some (engine_at o 0)) /\
  (size_at o 0 = (0, 0)%Z ->
     monitor_actions m = [] /\ retry_task m = None).
Proof.
  unfold Monitor, Resize. destruct (size_at o 0) as [h w].
  destruct (Z.eqb_spec h 0) as [->|Hh], (Z.eqb_spec w 0) as [->|Hw],
    (engine_at o 0) as [e|]; cbn;
    (split; [done|]); (split; [done|]); split;
    try (split; [intros [? [=]] | intros [? [? [=]]]]; fail);
    try (split; [intros _; split; [congruence|by eexists] | by eexists];
         fail);
    try (intros [=]; done); try done.
  all: split; [by intros [? ?]|by intros [? _]].
Qed.

(** X12. The retry task of Monitor makes at most maxRetries waits and at most
    one resize request after each.  It calls Fatalf only after all
    maxRetries attempts, none of them cancelled, have failed. *)
Theorem Monitor_retry_task_bounded
    (o : ResizeOracle) (t : TTY) (cancelled : nat -> bool)
    (trace : list Action) :
  retry_task (Monitor o t cancelled) = Some trace ->
  let N := Z.to_nat (maxRetries t) in
  (length (delays trace) <= N)%nat /\
  (length (resize_requests trace) <= length (delays trace))%nat /\
  (fatal trace = true ->
     (0 < N)%nat /\ length (delays trace) = N /\
     forall k, (1 <= k <= N)%nat ->
       cancelled (k - 1)%nat = false /\ is_Some (fst (Resize o t k))).
Proof.
  unfold Monitor. destruct (Resize o t 0) as [[e|] acts]; [|done].
  cbn [retry_task]. intros [= <-].
  destruct (retry_loop_bounds o t cancelled 0 (Z.to_nat (maxRetries t)) None)
    as (B1 & B2 & _ & B4).
  cbn zeta in *. split; [done|]. split; [done|].
  intros Hfatal. destruct (B4 Hfatal) as (C1 & C2 & C3).
  split; [|split; [done|]].
  - destruct (Z.to_nat (maxRetries t)); [|lia].
    destruct (C2 eq_refl) as [? [=]].
  - intros k Hk. destruct (C3 (k - 1)%nat) as [D1 D2]; [lia|].
    cbn [Nat.add] in *. split; [done|].
    by replace k with (S (k - 1)) by lia.
Qed.

(** X13. Cancellation is not reported as a failure: if the context is done
    at some turn of the retry task, the task has stopped by that turn
    and never calls Fatalf. *)
Theorem Monitor_retry_cancelled_is_silent
    (o : ResizeOracle) (t : TTY) (cancelled : nat -> bool)
    (trace : list Action) (k : nat) :
  retry_task (Monitor o t cancelled) = Some trace ->
  (k < Z.to_nat (maxRetries t))%nat ->
  cancelled k = true ->
  fatal trace = false /\
  (length (delays trace) <= k)%nat /\
  (length (resize_requests trace) <= k)%nat.
Proof.
  unfold Monitor. destruct (Resize o t 0) as [[e|] acts]; [|done].
  cbn [retry_task]. intros [= <-] Hk Hc.
  destruct (retry_loop_bounds o t cancelled 0 (Z.to_nat (maxRetries t)) None)
    as (_ & B2 & B3 & _).
  cbn zeta in *. destruct (B3 k Hk Hc) as [D1 D2].
  split; [done|]. split; [done|lia].
Qed.

End WithFmt.
End DockerMore.
(* ===================================================================== *)
(** * Properties of session names *)
(* ===================================================================== *)

Module DecimalFacts.
Import Sessions.

Lemma pretty_N_char_digit x : is_digit (pretty_N_char x) = true.
Proof. unfold pretty_N_char. by repeat case_match. Qed.

Lemma pretty_N_go_digits x s :
  all_digits s = true -> all_digits (pretty_N_go x s) = true.
Proof.
  revert s. induction (N.lt_wf_0 x) as [x _ IH]. intros s Hs.
  assert (x = 0 \/ 0 < x)%N as [->|Hpos] by lia; [done|].
  rewrite pretty_N_go_step by done.
  apply IH; [by apply N.div_lt|].
  cbn [all_digits]. by rewrite pretty_N_char_digit.
Qed.

Lemma pretty_N_go_length x s k :
  (x < 10 ^ N.of_nat k)%N ->
  (String.length s <= String.length (pretty_N_go x s)
   <= k + String.length s)%nat.
Proof.
  revert x s. induction k as [|k IH]; intros x s Hx.
  - change (N.of_nat 0) with 0%N in Hx. rewrite N.pow_0_r in Hx.
    assert (x = 0)%N as -> by lia. rewrite pretty_N_go_0. lia.
  - assert (x = 0 \/ 0 < x)%N as [->|Hpos] by lia;
      [rewrite pretty_N_go_0; lia|].
    rewrite pretty_N_go_step by done.
    assert (x `div` 10 < 10 ^ N.of_nat k)%N as Hdiv.
    { apply N.Div0.div_lt_upper_bound.
      replace (N.of_nat (S k)) with (N.succ (N.of_nat k)) in Hx by lia.
      by rewrite N.pow_succ_r' in Hx. }
    pose proof (IH _ (String (pretty_N_char (x `mod` 10)) s) Hdiv) as Hl.
    cbn [String.length] in Hl. lia.
Qed.

Lemma pretty_N_go_pos_nonempty x :
  (0 < x)%N -> pretty_N_go x "" <> "".
Proof.
  intros Hpos Heq. rewrite pretty_N_go_step in Heq by done.
  assert (exists k, x `div` 10 < 10 ^ N.of_nat k)%N as [k Hk].
  { exists (N.to_nat (x `div` 10)). rewrite N2Nat.id.
    apply N.pow_gt_lin_r. lia. }
  pose proof (pretty_N_go_length _
                (String (pretty_N_char (x `mod` 10)) "") k Hk) as Hl.
  rewrite Heq in Hl. cbn [String.length] in Hl. lia.
Qed.

(** The numeral of a number that is not negative: digits only, at least
    one, and no more than [k] of them below [10^k]. *)
Lemma pretty_Z_digits z k :
  (0 <= z < 10 ^ Z.of_nat k)%Z -> (0 < k)%nat ->
  all_digits (pretty z) = true /\ pretty z <> "" /\
  (String.length (pretty z) <= k)%nat.
Proof.
  intros Hz Hk. destruct z as [|p|p]; [|clear Hk|lia].
  - repeat split; [done|]. cbn. lia.
  - change (pretty (Z.pos p)) with (pretty (N.pos p)).
    unfold pretty, pretty_N. rewrite decide_False by done.
    split; [by apply pretty_N_go_digits|].
    split; [by apply pretty_N_go_pos_nonempty|].
    assert (N.pos p < 10 ^ N.of_nat k)%N as Hp.
    { apply N2Z.inj_lt. rewrite N2Z.inj_pow, nat_N_Z.
      exact (proj2 Hz). }
    pose proof (pretty_N_go_length _ "" k Hp) as Hl.
    change (String.length "") with 0%nat in Hl. lia.
Qed.

Lemma digits_split_on_slash d :
  all_digits d = true -> Filepath.split_on "/" d = [d].
Proof.
  induction d as [|c d IH]; [done|]. cbn [all_digits Filepath.split_on].
  intros H. apply andb_prop in H as [Hc Hd]. rewrite IH by done.
  destruct (Ascii.eqb_spec c "/") as [->|_]; [done|done].
Qed.

Lemma split_on_slash_prefix pre d :
  no_slash pre = true -> Filepath.split_on "/" d = [d] ->
  Filepath.split_on "/" (pre +:+ d) = [pre +:+ d].
Proof.
  intros Hpre Hd. induction pre as [|c pre IH]; [done|].
  cbn [no_slash] in Hpre. apply andb_prop in Hpre as [Hc Hpre].
  apply negb_true_iff in Hc.
  rewrite FilepathFacts.append_cons. cbn [Filepath.split_on].
  by rewrite Hc, IH.
Qed.

Lemma digits_valid_component d :
  all_digits d = true -> d <> "" -> Filepath.valid_component d = true.
Proof.
  destruct d as [|c r]; [done|]. intros Hd _.
  cbn [all_digits] in Hd. apply andb_prop in Hd as [Hc _].
  destruct c as [[] [] [] [] [] [] [] []]; try discriminate Hc; reflexivity.
Qed.

End DecimalFacts.

Module SessionFacts.
Import Sessions DecimalFacts.

(** X15. Two sessions have the same container name, or the same branch name,
    only if they have the same id; and no container name is a branch
    name. *)
Theorem Session_names_injective (s1 s2 : Session) :
  (ID s1 = ID s2 -> s1 = s2) /\
  (Branch s1 = Branch s2 -> s1 = s2) /\
  ID s1 <> Branch s2.
Proof.
  destruct s1 as [i1], s2 as [i2]. unfold ID, Branch. cbn [id].
  split; [|split].
  - intros H. apply String.app_inj in H. apply pretty_Z_inj in H.
    by subst.
  - intros H. apply String.app_inj in H. apply pretty_Z_inj in H.
    by subst.
  - intros H. by injection H.
Qed.

(** X16. For an id that GenerateSession can draw, the container name is
    [contagent-] followed by one to four decimal digits and holds no
    slash; the branch name is [contagent/] followed by the same digits,
    a plain two-component path. *)
Theorem Session_names_wellformed (draw : Z) :
  (0 <= draw < 10000)%Z ->
  let s := GenerateSession draw in
  exists digits,
    ID s = "contagent-" +:+ digits /\
    Branch s = "contagent/" +:+ digits /\
    all_digits digits = true /\
    (1 <= String.length digits <= 4)%nat /\
    Filepath.split_on "/" (ID s) = [ID s] /\
    Filepath.split_on "/" (Branch s) = ["contagent"; digits] /\
    Filepath.plain_path (Branch s) = true.
Proof.
  intros Hd. cbn zeta. unfold ID, Branch, GenerateSession. cbn [id].
  destruct (pretty_Z_digits draw 4) as (Hdig & Hne & Hlen); [lia|lia|].
  exists (pretty draw).
  pose proof (digits_split_on_slash _ Hdig) as Hsplit.
  assert (1 <= String.length (pretty draw))%nat.
  { destruct (pretty draw); [done|cbn; lia]. }
  split; [done|]. split; [done|]. split; [done|]. split; [lia|].
  assert (Filepath.split_on "/" ("contagent/" +:+ pretty draw)
          = ["contagent"; pretty draw]) as Hb.
  { change ("contagent/" +:+ pretty draw)
      with ("contagent" +:+ String "/" (pretty draw)).
    by rewrite FilepathFacts.split_on_app, Hsplit. }
  split; [by apply split_on_slash_prefix|]. split; [done|].
  unfold Filepath.plain_path. change Filepath.Separator with "/"%char.
  rewrite Hb. cbn [forallb].
  assert (pretty draw <> "") as Hnonempty.
  { intros E. rewrite E in H. cbn in H. lia. }
  by rewrite (digits_valid_component _ Hdig Hnonempty).
Qed.

End SessionFacts.

(* ===================================================================== *)
(** * Facts about the mock writer's helpers *)
(* ===================================================================== *)

Module MockFacts.
Import MockWriter StringFacts.

Lemma digit_byte_pretty (n : Z) :
  (0 <= n)%Z ->
  digit_byte (Z.rem n 10) = pretty_N_char (Z.to_N n `mod` 10)%N.
Proof.
  intros Hn. rewrite Z.rem_mod_nonneg by lia.
  replace (Z.to_N n `mod` 10)%N with (Z.to_N (n mod 10))
    by (rewrite Z2N.inj_mod by lia; done).
  pose proof (Z.mod_pos_bound n 10 ltac:(lia)) as Hb.
  assert (n mod 10 = 0 \/ n mod 10 = 1 \/ n mod 10 = 2 \/ n mod 10 = 3
          \/ n mod 10 = 4 \/ n mod 10 = 5 \/ n mod 10 = 6 \/ n mod 10 = 7
          \/ n mod 10 = 8 \/ n mod 10 = 9)%Z as Hcases by lia.
  destruct Hcases as [E|[E|[E|[E|[E|[E|[E|[E|[E|E]]]]]]]]];
    rewrite E; reflexivity.
Qed.

(** The digit loop writes the decimal digits of [n] in front of what is
    there, and leaves at least [slots - m] bytes free when [n] is below
    [10^m]. *)
Lemma itoa_digits_pretty (slots : nat) :
  forall (m : nat) (n : Z) (acc : string),
    (0 <= n < 10 ^ Z.of_nat m)%Z -> (m <= slots)%nat ->
    exists k, (slots - m <= k)%nat /\
      itoa_digits slots n acc = Some (k, pretty_N_go (Z.to_N n) acc).
Proof.
  induction slots as [|slots IH]; intros m n acc Hn Hm.
  - assert (m = 0)%nat as -> by lia. change (10 ^ Z.of_nat 0)%Z with 1%Z in Hn.
    assert (n = 0)%Z as -> by lia. exists 0%nat. by split.
  - cbn [itoa_digits]. destruct (Z.ltb_spec 0 n) as [Hpos|Hzero].
    + destruct m as [|m].
      { change (10 ^ Z.of_nat 0)%Z with 1%Z in Hn. lia. }
      destruct (IH m (Z.quot n 10)
                  (String (digit_byte (Z.rem n 10)) acc)) as (k & Hk & ->).
      * rewrite Z.quot_div_nonneg by lia. split.
        { apply Z.div_pos; lia. }
        apply Z.div_lt_upper_bound; [lia|].
        replace (Z.of_nat (S m)) with (Z.succ (Z.of_nat m)) in Hn by lia.
        rewrite Z.pow_succ_r in Hn by lia. lia.
      * lia.
      * exists k. split; [lia|]. f_equal. f_equal.
        rewrite (pretty_N_go_step (Z.to_N n)) by lia.
        rewrite digit_byte_pretty by lia. f_equal.
        rewrite Z.quot_div_nonneg by lia.
        by rewrite Z2N.inj_div by lia.
    + assert (n = 0)%Z as -> by lia. exists (S slots). split; [lia|done].
Qed.

(** X17. On every int64 but the least one, itoa64 returns the decimal numeral
    and never indexes out of its 20-byte buffer; on the least int64,
    whose negation wraps around to itself, it returns a lone minus
    sign. *)
Theorem itoa64_decimal (n : Z) :
  (- 2 ^ 63 <= n < 2 ^ 63)%Z ->
  itoa64 n = Some (if (n =? - 2 ^ 63)%Z then "-" else pretty n).
Proof.
  intros Hn. unfold itoa64.
  destruct (Z.eqb_spec n 0) as [->|Hn0]; [done|].
  destruct (Z.ltb_spec n 0) as [Hneg|Hpos].
  - destruct (Z.eqb_spec n (- 2 ^ 63)) as [->|Hmin]; [done|].
    assert (Docker.wrap64 (- n) = - n)%Z as ->.
    { unfold Docker.wrap64. rewrite Z.mod_small; lia. }
    destruct (itoa_digits_pretty 20 19 (- n) "") as (k & Hk & ->); [lia|lia|].
    destruct k as [|k]; [lia|]. f_equal.
    destruct n as [|p|p]; [done|lia|].
    change (- Z.neg p)%Z with (Z.pos p). cbn [Z.to_N].
    unfold pretty at 1, pretty_Z, pretty, pretty_positive, pretty, pretty_N.
    by rewrite decide_False by done.
  - destruct (Z.eqb_spec n (- 2 ^ 63)) as [->|_]; [lia|].
    destruct (itoa_digits_pretty 20 19 n "") as (k & Hk & ->); [lia|lia|].
    f_equal. destruct n as [|p|p]; [done| |lia]. cbn [Z.to_N].
    unfold pretty at 1, pretty_Z, pretty, pretty_positive, pretty, pretty_N.
    by rewrite decide_False by done.
Qed.

Lemma occurs_before_false (n : nat) (s old : string) :
  occurs_before n s old = false ->
  forall i, (i < n)%nat -> occurs_at i s old = false.
Proof.
  unfold occurs_before. intros H i Hi.
  destruct (occurs_at i s old) eqn:E; [|done].
  assert (existsb (fun i => occurs_at i s old) (seq 0 n) = true) as Ht.
  { apply existsb_exists. exists i. split; [|done].
    apply in_seq. lia. }
  congruence.
Qed.

(** ** replaceFirst *)

Ltac step_in_bounds :=
  match goal with
  | |- context [(?x <? ?y)%Z] =>
      destruct (Z.ltb_spec x y) as [_|?]; [|lia]
  end.

(** The loop steps over the indices at which [old] does not stand and
    rewrites at the first one at which it does. *)
Lemma replaceFirst_loop_found (old b new : string) :
  forall (a2 a1 : string) (fuel : nat),
    (String.length a2 < fuel)%nat ->
    (forall i, (String.length a1 <= i < String.length a1 + String.length a2)%nat ->
               occurs_at i (a1 +:+ a2 +:+ old +:+ b) old = false) ->
    replaceFirst_loop fuel (String.length a1) (a1 +:+ a2 +:+ old +:+ b) old new
    = a1 +:+ a2 +:+ new +:+ b.
Proof.
  induction a2 as [|c a2 IH]; intros a1 fuel Hfuel Hno.
  - destruct fuel as [|fuel]; [cbn in Hfuel; lia|].
    cbn [replaceFirst_loop]. change ("" +:+ old +:+ b) with (old +:+ b).
    rewrite !string_length_app.
    step_in_bounds.
    rewrite substring_skip, substring_take, String.eqb_refl.
    rewrite substring_take. rewrite slice_from_skip, slice_from_length.
    done.
  - destruct fuel as [|fuel]; [cbn in Hfuel; lia|].
    cbn [replaceFirst_loop].
    pose proof (Hno (String.length a1)) as Hhere.
    unfold occurs_at in Hhere. rewrite Hhere
      by (cbn [String.length]; lia).
    rewrite !string_length_app. cbn [String.length].
    step_in_bounds.
    specialize (IH (a1 +:+ String c "") fuel).
    rewrite string_length_app in IH. cbn [String.length] in IH.
    rewrite !string_app_assoc in IH.
    change (String c "" +:+ a2 +:+ old +:+ b)
      with (String c (a2 +:+ old +:+ b)) in IH.
    change (String c "" +:+ a2 +:+ new +:+ b)
      with (String c (a2 +:+ new +:+ b)) in IH.
    rewrite FilepathFacts.append_cons.
    replace (S (String.length a1)) with (String.length a1 + 1)%nat by lia.
    rewrite FilepathFacts.append_cons.
    apply IH; [cbn [String.length] in Hfuel; lia|].
    intros i Hi. apply Hno. cbn [String.length]. lia.
Qed.

(** The loop returns the string as it is when [old] stands at no index
    from [i] on. *)
Lemma replaceFirst_loop_absent (s old new : string) :
  forall (fuel i : nat),
    (forall j, (i <= j)%nat -> occurs_at j s old = false) ->
    replaceFirst_loop fuel i s old new = s.
Proof.
  induction fuel as [|fuel IH]; intros i Hno; [done|].
  cbn [replaceFirst_loop].
  destruct (_ <? _)%Z; [|done].
  pose proof (Hno i ltac:(lia)) as Hhere. unfold occurs_at in Hhere.
  rewrite Hhere. apply IH. intros j Hj. apply Hno. lia.
Qed.

Lemma occurs_at_too_long (i : nat) (s old : string) :
  (String.length s < i + String.length old)%nat ->
  old <> "" ->
  occurs_at i s old = false.
Proof.
  intros Hlen Hne. unfold occurs_at. apply String.eqb_neq. intros E.
  pose proof (substring_length_le i (String.length old) s) as Hle.
  rewrite E in Hle.
  destruct old; [done|]. cbn [String.length] in *. lia.
Qed.

(** X18. replaceFirst rewrites the first occurrence and only that one: when
    [old] stands at no index before the end of [a], the text
    [a ++ old ++ b] becomes [a ++ new ++ b], whatever [b] holds. *)
Theorem replaceFirst_first_occurrence (a old b new : string) :
  occurs_before (String.length a) (a +:+ old +:+ b) old = false ->
  replaceFirst (a +:+ old +:+ b) old new = a +:+ new +:+ b.
Proof.
  intros Hno. unfold replaceFirst.
  apply (replaceFirst_loop_found old b new a "").
  - rewrite string_length_app. lia.
  - intros i Hi. cbn [String.length] in Hi.
    change ("" +:+ a +:+ old +:+ b) with (a +:+ old +:+ b).
    apply (occurs_before_false _ _ _ Hno). lia.
Qed.

(** X19. replaceFirst returns its argument unchanged when [old] is longer
    than the text, or stands at none of its indices. *)
Theorem replaceFirst_without_occurrence (s old new : string) :
  (String.length s < String.length old)%nat \/
  occurs_before (S (String.length s)) s old = false ->
  replaceFirst s old new = s.
Proof.
  intros H. unfold replaceFirst.
  destruct H as [Hlong|Hno].
  - cbn [replaceFirst_loop].
    match goal with
    | |- context [(?x <? ?y)%Z] => destruct (Z.ltb_spec x y); [lia|done]
    end.
  - destruct (decide (old = "")) as [->|Hne].
    { pose proof (occurs_before_false _ _ _ Hno 0%nat ltac:(lia)) as H0.
      unfold occurs_at in H0. cbn in H0. by destruct s. }
    apply replaceFirst_loop_absent. intros j _.
    destruct (decide (j < S (String.length s))%nat) as [Hj|Hj].
    + by apply (occurs_before_false _ _ _ Hno).
    + apply occurs_at_too_long; [lia|done].
Qed.

(** X20. With the empty string for [old], replaceFirst puts [new] in front,
    also of the empty text. *)
Theorem replaceFirst_empty_old (s new : string) :
  replaceFirst s "" new = new +:+ s.
Proof.
  unfold replaceFirst. cbn [replaceFirst_loop String.length].
  step_in_bounds.
  by destruct s.
Qed.

(** ** sprint and sprintf *)

Lemma no_percent_app (a b : string) :
  no_percent (a +:+ b) = no_percent a && no_percent b.
Proof.
  induction a as [|x a IH]; [done|].
  rewrite FilepathFacts.append_cons. cbn [no_percent].
  by rewrite IH, andb_assoc.
Qed.

Lemma no_percent_no_verb (a rest tail : string) :
  no_percent a = true ->
  forall i, (i < String.length a)%nat ->
    occurs_at i (a +:+ rest) (String "%" tail) = false.
Proof.
  induction a as [|x a IH]; intros Ha i Hi; [cbn in Hi; lia|].
  cbn [no_percent] in Ha. apply andb_prop in Ha as [Hx Ha].
  rewrite FilepathFacts.append_cons. unfold occurs_at.
  destruct i as [|i].
  - cbn [String.length String.substring String.eqb].
    apply negb_true_iff in Hx. by rewrite Hx.
  - cbn [String.length String.substring].
    apply (IH Ha). cbn [String.length] in Hi. lia.
Qed.

(** A verb that follows text without a percent sign is the first one. *)
Lemma replaceFirst_verb (a b new : string) (c : ascii) :
  no_percent a = true ->
  replaceFirst (a +:+ String "%" (String c b)) (String "%" (String c "")) new
  = a +:+ new +:+ b.
Proof.
  intros Ha. unfold replaceFirst.
  change (String "%" (String c b)) with (String "%" (String c "") +:+ b).
  apply (replaceFirst_loop_found _ b new a "").
  - rewrite string_length_app. lia.
  - intros i Hi. cbn [String.length] in Hi.
    change ("" +:+ a +:+ String "%" (String c "") +:+ b)
      with (a +:+ String "%" (String c "") +:+ b).
    apply no_percent_no_verb; [done|lia].
Qed.

Lemma sprint_from_strings (l : list string) (i : nat) :
  sprint_from (S i) (map VString l)
  = Some (foldr (fun e acc => " " +:+ e +:+ acc) "" l).
Proof.
  revert i. induction l as [|e l IH]; intros i; [done|].
  cbn [map sprint_from toString]. rewrite IH. done.
Qed.

(** X21. sprint joins strings with single spaces, as strings.Join does. *)
Theorem sprint_strings_is_Join (l : list string) :
  sprint (map VString l) = Some (GoStr.Join l " ").
Proof.
  unfold sprint. destruct l as [|e l]; [done|].
  cbn [map sprint_from toString]. rewrite sprint_from_strings.
  f_equal. change ("" +:+ e +:+ ?x) with (e +:+ x).
  revert e. induction l as [|e' l IH]; intros e.
  - cbn. apply string_app_nil_r.
  - cbn [foldr]. change (GoStr.Join (e :: e' :: l) " ")
      with (e +:+ " " +:+ GoStr.Join (e' :: l) " ").
    by rewrite <- IH.
Qed.

(** X22. One value fills the first [%v], the first [%s] and the first [%d]
    of the format, not one verb only. *)
Theorem sprintf_one_value_fills_three_verbs
    (a b c d text : string) (v : Value) :
  toString v = Some text ->
  no_percent a = true -> no_percent b = true -> no_percent c = true ->
  no_percent text = true ->
  sprintf (a +:+ "%v" +:+ b +:+ "%s" +:+ c +:+ "%d" +:+ d) [v]
  = Some (a +:+ text +:+ b +:+ text +:+ c +:+ text +:+ d).
Proof.
  intros Hv Ha Hb Hc Ht. cbn [sprintf]. rewrite Hv. cbn zeta. f_equal.
  change ("%v" +:+ ?x) with (String "%" (String "v" x)).
  rewrite (replaceFirst_verb a _ text "v" Ha).
  rewrite <- (string_app_assoc text b), <- (string_app_assoc a).
  change ("%s" +:+ ?x) with (String "%" (String "s" x)).
  rewrite (replaceFirst_verb (a +:+ text +:+ b) _ text "s")
    by (rewrite !no_percent_app, Ha, Ht, Hb; done).
  rewrite <- (string_app_assoc text c), <- (string_app_assoc (a +:+ _)).
  change ("%d" +:+ ?x) with (String "%" (String "d" x)).
  rewrite (replaceFirst_verb _ d text "d")
    by (rewrite !no_percent_app, Ha, Ht, Hb, Hc; done).
  by rewrite !string_app_assoc.
Qed.

End MockFacts.

(* ===================================================================== *)
(** * More on the snapshot archive *)
(* ===================================================================== *)

Module ArchiveMore.
Import Filepath FilepathFacts StringFacts Git GitSpec.

(** ** Paths *)






(** ** copyDirectory writes inside its destination *)




(** ** The loop over the tracked files *)

Lemma has_suffix_slash_cons (a : ascii) (s : string) :
  has_suffix_slash (String a s)
  = match s with
    | EmptyString => Ascii.eqb a "/"
    | _ => has_suffix_slash s
    end.
Proof.
  unfold has_suffix_slash. cbn [String.length].
  replace (S (String.length s) - 1)%nat with (String.length s) by lia.
  destruct s as [|b s]; [done|].
  cbn [String.length GoStr.slice_from].
  by replace (S (String.length s) - 1)%nat with (String.length s) by lia.
Qed.




Lemma has_suffix_slash_app (p s : string) :
  s <> "" -> has_suffix_slash (p +:+ s) = has_suffix_slash s.
Proof.
  intros Hs. induction p as [|a p IH]; [done|].
  rewrite append_cons, has_suffix_slash_cons.
  destruct (p +:+ s) eqn:E; [|done].
  destruct p; [done|discriminate E].
Qed.

Lemma has_suffix_slash_closed (p : string) :
  has_suffix_slash (p +:+ "/") = true.
Proof. by rewrite has_suffix_slash_app. Qed.

Section WithFmt.
Variable Quote : string -> string.


(** The writers only append: what stands first stays first. *)
Lemma WriteHeader_keeps_first hdr tw :
  starts_with_app tw -> starts_with_app (snd (WriteHeader hdr tw)).
Proof.
  unfold starts_with_app, WriteHeader. intros H.
  destruct (header_err tw (length (entries tw))); [done|].
  cbn [snd entries]. by destruct (entries tw).
Qed.

Lemma add_to_archive_keeps_first open_err tarPath path rel v tw :
  starts_with_app tw ->
  starts_with_app (snd (add_to_archive open_err tarPath path rel v tw)).
Proof.
  intros H. unfold add_to_archive.
  destruct v as [info|err|info err]; [|done..].
  destruct (is_symlink info); [done|].
  destruct (IsDir info); [by apply WriteHeader_keeps_first|].
  destruct (open_err path); [done|].
  match goal with
  | |- context [WriteHeader ?h tw] =>
      pose proof (WriteHeader_keeps_first h tw H) as Hw;
      destruct (WriteHeader h tw) as [[e|] tw1]
  end; cbn [snd] in *; [done|].
  by destruct (CopyContent tw1).
Qed.

Lemma add_tracked_keeps_first env tempRoot lines tw :
  starts_with_app tw ->
  starts_with_app (snd (add_tracked Quote env tempRoot lines tw)).
Proof.
  revert tw. induction lines as [|relPath rest IH]; intros tw H; [done|].
  cbn [add_tracked].
  destruct (String.eqb relPath ""); [by apply IH|].
  destruct (lstat env (Join [tempRoot; relPath])) as [info|e];
    [|by apply IH].
  destruct (is_symlink info); [by apply IH|].
  destruct (IsDir info).
  - match goal with
    | |- context [WriteHeader ?h tw] =>
        pose proof (WriteHeader_keeps_first h tw H) as Hw;
        destruct (WriteHeader h tw) as [[e|] tw1]
    end; cbn [snd] in *; [done|by apply IH].
  - destruct (open_file env (Join [tempRoot; relPath])); [done|].
    match goal with
    | |- context [WriteHeader ?h tw] =>
        pose proof (WriteHeader_keeps_first h tw H) as Hw;
        destruct (WriteHeader h tw) as [[e|] tw1]
    end; cbn [snd] in *; [done|].
    destruct (CopyContent tw1); [done|by apply IH].
Qed.

(** X25. An archive that holds any entry starts with the directory [app/],
    mode 0755, and was made after every git command on the scratch
    repository had succeeded; removing the remote [origin] may have
    failed with exit code 2 and with no other error.  So when one of
    these commands fails, the reader gets no entry at all. *)
Theorem CreateArchive_entries_only_after_setup
    (env : ArchiveEnv) (path remote branch gitUserName gitUserEmail : string)
    (stream : ArchiveStream) :
  CreateArchive Quote env path remote branch gitUserName gitUserEmail
    = Ok stream ->
  stream_entries stream <> [] ->
  hd_error (stream_entries stream) = Some app_directory /\
  checkout_head env = RunOk /\
  (remote_remove env = RunOk \/
   exists e, remote_remove env = RunFailed (Some 2%Z) e) /\
  remote_add env = RunOk /\
  config_email env = RunOk /\
  config_name env = RunOk /\
  checkout_branch env = RunOk.
Proof.
  unfold CreateArchive.
  destruct (rev_parse env) as [root|]; [|done].
  destruct (mkdir_temp env) as [tempDir|]; [|done].
  unfold archive.
  destruct (copyDirectory _ _ _ _) as [copy_err copied].
  destruct copy_err as [e|]; [by intros [= <-]|].
  unfold run_or.
  destruct (checkout_head env); [|by intros [= <-]].
  assert (remove_origin_error (remote_remove env) = None ->
          remote_remove env = RunOk \/
          exists e, remote_remove env = RunFailed (Some 2%Z) e) as Hrm.
  { unfold remove_origin_error. destruct (remote_remove env) as [|code e];
      [by left|].
    case_bool_decide as Hc; [|done]. subst code. right. by exists e. }
  destruct (remove_origin_error (remote_remove env)); [by intros [= <-]|].
  destruct (remote_add env); [|by intros [= <-]].
  destruct (config_email env); [|by intros [= <-]].
  destruct (config_name env); [|by intros [= <-]].
  destruct (checkout_branch env); [|by intros [= <-]].
  unfold WriteHeader at 1. cbn [entries length header_err].
  destruct (pipe_header_err env 0) as [e|]; [by intros [= <-]|].
  cbn [Name HMode HSize HModTime Typeflag app].
  change (TypeDir =? TypeRegA)%Z with false. cbn match.
  match goal with
  | |- context [addDirectoryToArchive ?o ?d ?p ?t ?tw1] =>
      assert (starts_with_app (snd (addDirectoryToArchive o d p t tw1)))
        as Hg
        by (apply (ArchiveFacts.walk_keeps _ starts_with_app
                     (fun _ => true));
            [intros; by apply add_to_archive_keeps_first
            |apply ArchiveFacts.names_all_true|done|done]);
      destruct (addDirectoryToArchive o d p t tw1) as [[e|] tw2]
  end; cbn [snd] in Hg.
  { intros [= <-] _. cbn [stream_entries]. by repeat split; auto. }
  assert (forall tw3, starts_with_app tw3 ->
            hd_error (entries tw3) = Some app_directory /\
            RunOk = RunOk /\
            (remote_remove env = RunOk \/
             exists e, remote_remove env = RunFailed (Some 2%Z) e) /\
            RunOk = RunOk /\ RunOk = RunOk /\ RunOk = RunOk /\
            RunOk = RunOk) as Hdone.
  { intros tw3 H3. repeat split; auto. }
  destruct (ls_files env) as [[lines scan_err]|e].
  - pose proof (add_tracked_keeps_first env tempDir lines tw2 Hg) as Ht.
    destruct (add_tracked Quote env tempDir lines tw2) as [[e|] tw3];
      cbn [snd] in Ht.
    + intros [= <-] _. cbn [stream_entries]. by apply (Hdone tw3).
    + destruct scan_err; intros [= <-] _; cbn [stream_entries];
        by apply (Hdone tw3).
  - intros [= <-] _. cbn [stream_entries]. by apply (Hdone tw2).
Qed.

End WithFmt.

End ArchiveMore.

(* ===================================================================== *)
(** * The host environment as ParseConfig reads it *)
(* ===================================================================== *)

Module EnvFacts.
Import Config Cli StringFacts.

Lemma cut_at_no_sep (key rest : string) (c : ascii) :
  GoStr.cut_at c key = None ->
  GoStr.cut_at c (key +:+ String c rest) = Some (key, rest).
Proof.
  induction key as [|a key IH]; intros Hk.
  - change ("" +:+ String c rest) with (String c rest). cbn [GoStr.cut_at].
    by rewrite Ascii.eqb_refl.
  - rewrite FilepathFacts.append_cons. cbn [GoStr.cut_at] in *.
    destruct (Ascii.eqb a c); [done|].
    destruct (GoStr.cut_at c key) as [[b r]|]; [done|].
    by rewrite IH.
Qed.

Lemma cut_at_Some (c : ascii) (s before after : string) :
  GoStr.cut_at c s = Some (before, after) -> s = before +:+ String c after.
Proof.
  revert before. induction s as [|a s IH]; intros before; [done|].
  cbn [GoStr.cut_at]. destruct (Ascii.eqb_spec a c) as [->|Hne].
  - by intros [= <- <-].
  - destruct (GoStr.cut_at c s) as [[b r]|]; [|done].
    intros [= <- <-]. rewrite FilepathFacts.append_cons. f_equal.
    by apply IH.
Qed.

Lemma HasPrefix_self_app (p rest : string) :
  GoStr.HasPrefix (p +:+ rest) p = true.
Proof.
  unfold GoStr.HasPrefix. induction p as [|a p IH]; [by destruct rest|].
  rewrite FilepathFacts.append_cons. cbn [String.prefix].
  by destruct (ascii_dec a a).
Qed.

Lemma host_value_unbound (key : string) (environment : list string) :
  Forall (fun variable =>
            GoStr.HasPrefix variable (key +:+ "=") = false) environment ->
  host_value key environment = None.
Proof.
  induction 1 as [|variable rest Hv _ IH]; [done|].
  cbn [host_value]. rewrite IH.
  destruct (GoStr.cut_at "=" variable) as [[k value]|] eqn:E; [|done].
  destruct (String.eqb_spec k key) as [<-|]; [|done].
  apply cut_at_Some in E. subst variable.
  replace (k +:+ String "=" value) with ((k +:+ "=") +:+ value) in Hv
    by apply string_app_assoc.
  by rewrite HasPrefix_self_app in Hv.
Qed.

Lemma host_value_last (key value : string) (before after : list string) :
  GoStr.cut_at "=" key = None ->
  host_value key after = None ->
  host_value key (before ++ (key +:+ "=" +:+ value) :: after) = Some value.
Proof.
  intros Hkey Hafter. induction before as [|variable before IH].
  - cbn [app host_value]. rewrite Hafter.
    change (key +:+ "=" +:+ value) with (key +:+ String "=" value).
    rewrite cut_at_no_sep by done. by rewrite String.eqb_refl.
  - cbn [app host_value]. by rewrite IH.
Qed.

(** X6. Of several host variables with the same name the last one counts,
    and its value is everything after the first [=], be it empty or
    with further [=] signs: ParseConfig forwards [TERM], [COLORTERM] and
    [ANTHROPIC_API_KEY] with that value and does not fall back to a
    default. *)
Theorem ParseConfig_forwards_last_binding
    (args before after : list string) (key value : string) (i : nat) :
  In (key, i) forwarded ->
  Forall (fun variable =>
            GoStr.HasPrefix variable (key +:+ "=") = false) after ->
  Env (ParseConfig args (before ++ (key +:+ "=" +:+ value) :: after)) !! i
  = Some (key +:+ "=" +:+ value).
Proof.
  intros Hkey Hafter.
  assert (GoStr.cut_at "=" key = None) as Hcut.
  { destruct Hkey as [[= <- <-]|[[= <- <-]|[[= <- <-]|[]]]]; reflexivity. }
  pose proof (host_value_last key value before after Hcut
                (host_value_unbound key after Hafter)) as Hv.
  unfold ParseConfig.
  destruct (Flag.Parse flagset initial_vars args) as [[e fs] vars].
  cbn [Env]. rewrite !ConfigFacts.build_lookup_spec.
  destruct Hkey as [[= <- <-]|[[= <- <-]|[[= <- <-]|[]]]];
    rewrite Hv; reflexivity.
Qed.

End EnvFacts.

(* ===================================================================== *)
(** * Attach: which steps run, and what a failure leaves behind *)
(* ===================================================================== *)

Module AttachFacts.
Import Types Config Docker.

Section WithFmt.
Variable Quote : string -> string.

Lemma Monitor_result_nil o t cancelled :
  monitor_result (Monitor o t cancelled) = None.
Proof. unfold Monitor. by destruct (Resize o t 0). Qed.

Lemma Monitor_sends_no_attach o t cancelled id :
  ~ In (ContainerAttach id) (monitor_actions (Monitor o t cancelled)).
Proof.
  unfold Monitor, Resize. destruct (size_at o 0) as [height width].
  destruct ((height =? 0)%Z && (width =? 0)%Z); cbn; [tauto|].
  intros [H|[]]. discriminate H.
Qed.

(** X14. Attach asks the engine to attach exactly when stdin could be put in
    raw mode, whatever the resize requests answered.  It forwards stdin
    once that request is granted, and stdout only when it returns nil;
    so when raw mode fails on stdout, Attach returns an error while the
    forwarding of stdin is already running. *)
Theorem Attach_steps_and_forwarding (e : AttachEnv) (c : Container) :
  let a := Attach Quote e c in
  (In (ContainerAttach (ID c)) (attach_actions a) <-> in_raw e = None) /\
  (stdin_forwarding a = true <-> in_raw e = None /\ attach e = None) /\
  (stdout_forwarding a = true <-> attach_result a = None) /\
  (attach_result a = None <->
   in_raw e = None /\ attach e = None /\ out_raw e = None).
Proof.
  cbn zeta. unfold Attach. destruct (tty_size e) as [height width].
  set (t := NewTTY (ID c) (CTTYRetries c) (CRetryDelay c)).
  pose proof (Monitor_sends_no_attach (oracle e) t (ctx_cancelled e) (ID c))
    as Hno.
  rewrite (Monitor_result_nil (oracle e) t (ctx_cancelled e)).
  set (m := Monitor (oracle e) t (ctx_cancelled e)) in *.
  assert (forall tail,
            In (ContainerAttach (ID c))
               ((ContainerResize (ID c) height width ::
                 match first_resize e with
                 | Some err => [Warningf ("failed to resize tty: " +:+ err)]
                 | None => []
                 end) ++ monitor_actions m ++ tail)
            <-> In (ContainerAttach (ID c)) tail) as Hin.
  { intros tail. rewrite !in_app_iff. cbn [In].
    split; [|tauto]. intros [[H|H]|[H|H]].
    - discriminate H.
    - revert H. destruct (first_resize e); cbn; [|tauto].
      intros [H|[]]. discriminate H.
    - by destruct Hno.
    - done. }
  destruct (in_raw e) as [e1|];
    [|destruct (attach e) as [e2|]; [|destruct (out_raw e) as [e3|]]];
    cbn [attach_actions stdin_forwarding stdout_forwarding attach_result];
    rewrite <- ?app_assoc, ?Hin.
  all: clear Hin Hno; cbn [In]; intuition (discriminate || auto).
Qed.

End WithFmt.
End AttachFacts.

(* ===================================================================== *)
(** * More theorems with hypotheses, at concrete inputs *)
(* ===================================================================== *)

Module MoreInstances.
Import Config Cli Docker DockerSpec Git GitSpec Sessions.
Import Scenarios MoreScenarios.

(** An undefined flag [--verbose] after [--env A=1]. *)
Lemma ParseConfig_unknown_flag_witness :
  let c := ParseConfig
             (concat (map render [FlagEnv "A=1"])
                ++ ("--" +:+ "verbose") :: ["bash"]) [] in
  Args c = ["bash"] /\
  drop 4 (Env c) = env_values [FlagEnv "A=1"] /\
  Volumes c = defaultVolumes ++ volume_values [FlagEnv "A=1"] /\
  DockerfilePath c = default "" (last_dockerfile [FlagEnv "A=1"]) /\
  Network c = default "default" (last_network [FlagEnv "A=1"]).
Proof.
  apply (CliFacts.ParseConfig_unknown_flag_dropped
           [FlagEnv "A=1"] "--" "verbose" ["bash"] []).
  - right. reflexivity.
  - reflexivity.
Defined.

(** Two [--network] flags before the command. *)
Lemma ParseConfig_last_network_witness :
  let c := ParseConfig
             (concat (map render [FlagNetwork "a"; FlagNetwork "b"])
                ++ ["bash"]) [] in
  Network c = default "default"
                (last_network [FlagNetwork "a"; FlagNetwork "b"]) /\
  DockerfilePath c
  = default "" (last_dockerfile [FlagNetwork "a"; FlagNetwork "b"]).
Proof.
  apply (CliFacts.ParseConfig_last_network_and_dockerfile
           [FlagNetwork "a"; FlagNetwork "b"] ["bash"] []).
  reflexivity.
Defined.

(** A host with two bindings of [TERM], the last with [=] in its value. *)
Lemma ParseConfig_forwards_witness :
  Env (ParseConfig ["bash"]
         (["TERM=dumb"] ++ ("TERM" +:+ "=" +:+ "xterm=1") :: ["HOME=/root"]))
    !! 0%nat
  = Some ("TERM" +:+ "=" +:+ "xterm=1").
Proof.
  apply (EnvFacts.ParseConfig_forwards_last_binding
           ["bash"] ["TERM=dumb"] ["HOME=/root"] "TERM" "xterm=1" 0).
  - left. reflexivity.
  - repeat constructor.
Defined.

(** A build of two clean records. *)
Lemma BuildImage_success_witness :
  let actions :=
    snd (BuildImage (fun s => s) clean_build_env "Dockerfile"
           "contagent:latest") in
  Docker.Name {| Docker.Name := "contagent:latest" |} = "contagent:latest" /\
  is_err (read_file clean_build_env) = false /\
  exists outputs,
    image_build clean_build_env = Ok (map Ok outputs) /\
    Forall (fun o => ErrorDetail_Code o = 0%Z) outputs /\
    (forall k, (k < length outputs)%nat ->
       ctx_err_at clean_build_env k = None) /\
    printed actions = map Stream outputs /\
    actions = ImageBuild {| Dockerfile := "Dockerfile";
                            Tags := ["contagent:latest"];
                            Remove := true |}
              :: map (fun o => Print (Stream o)) outputs.
Proof.
  apply (DockerMore.BuildImage_success_means_clean_build (fun s => s)
           clean_build_env "Dockerfile" "contagent:latest"
           {| Docker.Name := "contagent:latest" |}).
  reflexivity.
Defined.

(** Ten refused retries, none cancelled. *)
Lemma Monitor_retry_bounded_witness :
  let N := Z.to_nat (maxRetries demo_tty) in
  (length (delays stubborn_trace) <= N)%nat /\
  (length (resize_requests stubborn_trace)
   <= length (delays stubborn_trace))%nat /\
  (fatal stubborn_trace = true ->
     (0 < N)%nat /\ length (delays stubborn_trace) = N /\
     forall k, (1 <= k <= N)%nat ->
       (fun _ : nat => false) (k - 1)%nat = false /\
       is_Some (fst (Resize stubborn_oracle demo_tty k))).
Proof.
  apply (DockerMore.Monitor_retry_task_bounded stubborn_oracle demo_tty
           (fun _ => false) stubborn_trace).
  reflexivity.
Defined.

(** The context is done from the third turn on. *)
Lemma Monitor_retry_cancelled_witness :
  fatal cancelled_trace = false /\
  (length (delays cancelled_trace) <= 2)%nat /\
  (length (resize_requests cancelled_trace) <= 2)%nat.
Proof.
  apply (DockerMore.Monitor_retry_cancelled_is_silent stubborn_oracle
           demo_tty cancelled_from_2 cancelled_trace 2).
  - reflexivity.
  - vm_compute. lia.
  - reflexivity.
Defined.

(** The session with id 42. *)
Lemma Session_names_witness :
  let s := GenerateSession 42 in
  exists digits,
    ID s = "contagent-" +:+ digits /\
    Branch s = "contagent/" +:+ digits /\
    all_digits digits = true /\
    (1 <= String.length digits <= 4)%nat /\
    Filepath.split_on "/" (ID s) = [ID s] /\
    Filepath.split_on "/" (Branch s) = ["contagent"; digits] /\
    Filepath.plain_path (Branch s) = true.
Proof.
  apply (SessionFacts.Session_names_wellformed 42). lia.
Defined.

(** A negative number. *)
Lemma itoa64_witness :
  MockWriter.itoa64 (-42) = Some (if (-42 =? - 2 ^ 63)%Z then "-" else pretty (-42)%Z).
Proof.
  apply (MockFacts.itoa64_decimal (-42)). lia.
Defined.

(** The first of two verbs. *)
Lemma replaceFirst_first_witness :
  MockWriter.replaceFirst ("ab" +:+ "%v" +:+ "x%v") "%v" "N" = "ab" +:+ "N" +:+ "x%v".
Proof.
  apply (MockFacts.replaceFirst_first_occurrence "ab" "%v" "x%v" "N").
  reflexivity.
Defined.

(** A text without the verb. *)
Lemma replaceFirst_without_witness :
  MockWriter.replaceFirst "abc" "%v" "N" = "abc".
Proof.
  apply (MockFacts.replaceFirst_without_occurrence "abc" "%v" "N").
  right. reflexivity.
Defined.

(** One number for three verbs. *)
Lemma sprintf_three_verbs_witness :
  MockWriter.sprintf ("a=" +:+ "%v" +:+ " b=" +:+ "%s" +:+ " c=" +:+ "%d" +:+ ".")
    [MockWriter.VInt 7]
  = Some ("a=" +:+ "7" +:+ " b=" +:+ "7" +:+ " c=" +:+ "7" +:+ ".").
Proof.
  apply (MockFacts.sprintf_one_value_fills_three_verbs
           "a=" " b=" " c=" "." "7" (MockWriter.VInt 7)); reflexivity.
Defined.



(** The archive of the demo repository, whose [origin] remote is
    missing. *)
Lemma CreateArchive_setup_witness :
  hd_error (stream_entries demo_stream) = Some app_directory /\
  checkout_head demo_archive_env = RunOk /\
  (remote_remove demo_archive_env = RunOk \/
   exists e, remote_remove demo_archive_env = RunFailed (Some 2%Z) e) /\
  remote_add demo_archive_env = RunOk /\
  config_email demo_archive_env = RunOk /\
  config_name demo_archive_env = RunOk /\
  checkout_branch demo_archive_env = RunOk.
Proof.
  apply (ArchiveMore.CreateArchive_entries_only_after_setup (fun s => s)
           demo_archive_env "/home/dev/project"
           "http://host.docker.internal:40123" "contagent/42"
           "Contagent" "contagent@example.com" demo_stream).
  - vm_compute. reflexivity.
  - vm_compute. discriminate.
Defined.

End MoreInstances.
